(** * Revault demo: transaction templates, signing policy and the
      stakeholder engine, embedded from [revault/transactions/__init__.py]
      and [revault/vault.py]. *)

From Stdlib Require Import ZArith Lia.
From Stdlib Require Import Strings.Byte Strings.Ascii Strings.String.
From stdpp Require Import base option list strings gmap.

Local Open Scope Z_scope.

(** ** Bytes *)

Abbreviation bytes := (list byte).

#[global] Instance byte_eq_decision : EqDecision byte := Byte.byte_eq_dec.

Definition Z_of_byte (b : byte) : Z := Z.of_N (Byte.to_N b).

(** [bytes([n])] for an integer already known to lie in [0, 256); the
    lemma [sighash_in_range] below shows that the two flags the signing
    functions pass are in that range, where Python does not raise. *)
Definition byte_of_Z (n : Z) : byte :=
  default x00 (Byte.of_N (Z.to_N (n mod 256))).

(** [struct.pack] little-endian, [width] bytes. *)
Fixpoint le_bytes (width : nat) (n : Z) : bytes :=
  match width with
  | O => []
  | S w => byte_of_Z (Z.land n 255) :: le_bytes w (Z.shiftr n 8)
  end.

Definition hex_digit (n : Z) : ascii :=
  if n <? 10 then ascii_of_N (Z.to_N (48 + n)) else ascii_of_N (Z.to_N (87 + n)).

(** [bytes.hex()] *)
Fixpoint hex (bs : bytes) : string :=
  match bs with
  | [] => EmptyString
  | b :: bs' =>
      String (hex_digit (Z.shiftr (Z_of_byte b) 4))
        (String (hex_digit (Z.land (Z_of_byte b) 15)) (hex bs'))
  end.

(** The trailing flag byte of a raw signature. *)
Definition sighash_flag (sig : bytes) : option byte := last sig.

(** ** Python exceptions and fallible results *)

Inductive exn :=
| AssertionError
| TypeError
| IndexError
| AttributeError
| Exception (msg : string).

Inductive result (A : Type) :=
| Ok (a : A)
| Raise (e : exn).
Arguments Ok {A} a.
Arguments Raise {A} e.

#[global] Instance result_ret : MRet result := @Ok.
#[global] Instance result_bind : MBind result := λ A B k r,
  match r with
  | Ok a => k a
  | Raise e => Raise e
  end.
#[global] Instance result_fmap : FMap result := λ A B f r,
  match r with
  | Ok a => Ok (f a)
  | Raise e => Raise e
  end.

(** ** Script serialisation (python-bitcoinlib's [CScript]) *)

Module Script.

Definition OP_0 : byte := x00.
Definition OP_1NEGATE : byte := x4f.
Definition OP_1 : byte := x51.
Definition OP_2 : byte := x52.
Definition OP_3 : byte := x53.
Definition OP_4 : byte := x54.
Definition OP_6 : byte := x56.
Definition OP_IF : byte := x63.
Definition OP_ELSE : byte := x67.
Definition OP_ENDIF : byte := x68.
Definition OP_DROP : byte := x75.
Definition OP_DUP : byte := x76.
Definition OP_SWAP : byte := x7c.
Definition OP_EQUAL : byte := x87.
Definition OP_EQUALVERIFY : byte := x88.
Definition OP_ADD : byte := x93.
Definition OP_CHECKSIG : byte := xac.
Definition OP_CHECKSIGVERIFY : byte := xad.
Definition OP_CHECKMULTISIG : byte := xae.
Definition OP_CHECKSEQUENCEVERIFY : byte := xb2.

Definition SIGHASH_ALL : Z := 1.
Definition SIGHASH_ANYONECANPAY : Z := 128.

(** What a Python list handed to [CScript([...])] may hold: an opcode
    object, a plain integer, or a byte string. *)
Inductive item :=
| Op (op : byte)
| Int (n : Z)
| Data (d : bytes).

(** [CScriptOp.encode_op_pushdata]. The library raises [ValueError] for
    data longer than 0xffffffff bytes; the 4-byte length of the last
    branch is written out for every remaining length. *)
Definition encode_op_pushdata (d : bytes) : bytes :=
  let len := Z.of_nat (length d) in
  if len <? 76 then byte_of_Z len :: d
  else if len <=? 255 then x4c :: byte_of_Z len :: d
  else if len <=? 65535 then x4d :: le_bytes 2 len ++ d
  else x4e :: le_bytes 4 len ++ d.

(** [int.bit_length()] *)
Definition bit_length (v : Z) : Z :=
  if Z.abs v =? 0 then 0 else Z.log2 (Z.abs v) + 1.

(** [bn2bin]: the magnitude, big-endian, on [i] bytes. *)
Fixpoint bn2bin_from (i : nat) (v : Z) : bytes :=
  match i with
  | O => []
  | S i' => byte_of_Z (Z.land (Z.shiftr v (Z.of_nat i' * 8)) 255)
            :: bn2bin_from i' v
  end.

Definition bn2bin (v : Z) : bytes :=
  bn2bin_from (Z.to_nat ((bit_length v + 7) / 8)) v.

Definition set_high_bit (bs : bytes) : bytes :=
  match bs with
  | [] => []
  | b :: bs' => byte_of_Z (Z.lor (Z_of_byte b) 128) :: bs'
  end.

(** [bn2vch]: [bn2mpi] without its 4-byte size prefix, reversed. *)
Definition bn2vch (v : Z) : bytes :=
  let have_ext := (0 <? bit_length v) && (Z.land (bit_length v) 7 =? 0) in
  let neg := v <? 0 in
  let ext : bytes := if have_ext then [x00] else [] in
  let v_bin := bn2bin (Z.abs v) in
  let ext' := if neg && have_ext then set_high_bit ext else ext in
  let v_bin' := if neg && negb have_ext then set_high_bit v_bin else v_bin in
  rev (ext' ++ v_bin').

(** [CScript.__coerce_instance] *)
Definition coerce (it : item) : bytes :=
  match it with
  | Op op => [op]
  | Int n =>
      if (0 <=? n) && (n <=? 16) then
        [if n =? 0 then OP_0 else byte_of_Z (Z_of_byte OP_1 + n - 1)]
      else if n =? -1 then [OP_1NEGATE]
      else encode_op_pushdata (bn2vch n)
  | Data d => encode_op_pushdata d
  end.

Definition CScript (items : list item) : bytes :=
  concat (coerce <$> items).

End Script.
Import Script.

(** ** Transactions (python-bitcoinlib's [CTransaction] family) *)

Record COutPoint := { op_hash : bytes; op_n : Z }.
Record CTxIn := { prevout : COutPoint; scriptSig : bytes; nSequence : Z }.
Record CTxOut := { nValue : Z; scriptPubKey : bytes }.

(** A witness is one stack of byte strings per input.  A mutable and an
    immutable transaction carry the same fields; [CTransaction.from_tx]
    copies them. *)
Record tx := {
  vin : list CTxIn;
  vout : list CTxOut;
  nLockTime : Z;
  nVersion : Z;
  wit : list (list bytes);
}.

(** [CMutableTransaction(vin, vout, nVersion=v)]: lock time 0, no witness. *)
Definition CMutableTransaction (ins : list CTxIn) (outs : list CTxOut)
    (version : Z) : tx :=
  {| vin := ins; vout := outs; nLockTime := 0; nVersion := version; wit := [] |}.

Definition set_wit (t : tx) (w : list (list bytes)) : tx :=
  {| vin := vin t; vout := vout t; nLockTime := nLockTime t;
     nVersion := nVersion t; wit := w |}.

(** The cryptographic and encoding routines the module imports. *)
Class Crypto := {
(** [hashlib.sha256(b).digest()] *)
sha256 : bytes → bytes;
(** [CKey(privkey).sign(hash)] *)
ecdsa_sign : bytes → bytes → bytes;
(** [SignatureHash(script, tx, inIdx, hashtype, amount, SIGVERSION_WITNESS_V0)] *)
SignatureHash : bytes → tx → Z → Z → Z → bytes;
(** [CBitcoinAddress(address).to_scriptPubKey()] *)
to_scriptPubKey : string → bytes;
}.

Module Transactions.
Section transactions.
Context `{Crypto}.

(** The SIGHASH used for the signature given to other stakeholders. *)
Definition ALL_ANYONECANPAY : Z := Z.lor SIGHASH_ALL SIGHASH_ANYONECANPAY.

Definition vault_script (pubkeys : list bytes) : bytes :=
  CScript ([Op OP_4] ++ (Data <$> pubkeys) ++ [Op OP_4; Op OP_CHECKMULTISIG]).

Definition p2wsh (script : bytes) : bytes :=
  CScript [Op OP_0; Data (sha256 script)].

Definition vault_txout (pubkeys : list bytes) (value : Z) : CTxOut :=
  let script := vault_script pubkeys in
  {| nValue := value; scriptPubKey := p2wsh script |}.

Definition unvault_script (pub_trader1 pub_trader2 pub1 pub2 pub_server : bytes)
    : bytes :=
  CScript [Data pub_trader1; Op OP_CHECKSIG; Op OP_SWAP; Data pub_trader2;
           Op OP_CHECKSIG; Op OP_ADD; Op OP_SWAP; Data pub1; Op OP_CHECKSIG;
           Op OP_ADD; Op OP_DUP; Op OP_3; Op OP_EQUAL; Op OP_IF; Op OP_DROP;
           Data pub2; Op OP_CHECKSIG; Op OP_ELSE; Op OP_2; Op OP_EQUALVERIFY;
           Data pub_server; Op OP_CHECKSIGVERIFY; Op OP_6;
           Op OP_CHECKSEQUENCEVERIFY; Op OP_ENDIF].

(** [unvault_script] applied to the unpacked list [pubkeys] followed by
    [pub_server]: the call is well formed only
    when the list unpacks to exactly four positional arguments. *)
Definition unvault_script_star (pubkeys : list bytes) (pub_server : bytes)
    : result bytes :=
  match pubkeys with
  | [pub_trader1; pub_trader2; pub1; pub2] =>
      Ok (unvault_script pub_trader1 pub_trader2 pub1 pub2 pub_server)
  | _ => Raise TypeError
  end.

Definition unvault_txout (pubkeys : list bytes) (pub_server : bytes) (value : Z)
    : result CTxOut :=
  script ← unvault_script_star pubkeys pub_server;
  Ok {| nValue := value; scriptPubKey := p2wsh script |}.

(** A locktime of a month: 31 * 24 * 6. *)
Definition emergency_script (pubkeys : list bytes) : bytes :=
  CScript ([Int 4464; Op OP_CHECKSEQUENCEVERIFY; Op OP_DROP; Op OP_4]
           ++ (Data <$> pubkeys) ++ [Op OP_4; Op OP_CHECKMULTISIG]).

Definition emergency_txout (pubkeys : list bytes) (value : Z) : CTxOut :=
  let script := emergency_script pubkeys in
  {| nValue := value; scriptPubKey := p2wsh script |}.

Definition create_spend_vault_txout (vault_txid : bytes) (vault_vout : Z)
    (txout : CTxOut) (rbf : bool) : tx :=
  let sequence := if rbf then 0xfffffffe else 0xffffffff in
  let tmp_txin := {| prevout := {| op_hash := vault_txid; op_n := vault_vout |};
                     scriptSig := []; nSequence := sequence |} in
  CMutableTransaction [tmp_txin] [txout] 2.

(** Sets [tx.wit] on the transaction it is given and returns the
    immutable copy. *)
Definition form_spend_vault_txout (t : tx) (pubkeys sigs : list bytes) : tx :=
  let witness_script := [[]] ++ sigs ++ [vault_script pubkeys] in
  set_wit t [witness_script].

Definition create_unvault_tx (vault_txid : bytes) (vault_vout : Z)
    (pubkeys : list bytes) (pub_server : bytes) (value : Z) : result tx :=
  txout ← unvault_txout pubkeys pub_server value;
  Ok (create_spend_vault_txout vault_txid vault_vout txout false).

Definition sign_unvault_tx (t : tx) (privkey : bytes) (pubkeys : list bytes)
    (prev_value : Z) : bytes :=
  let tx_hash := SignatureHash (vault_script pubkeys) t 0 SIGHASH_ALL prev_value in
  ecdsa_sign privkey tx_hash ++ [byte_of_Z SIGHASH_ALL].

Definition form_unvault_tx (t : tx) (pubkeys sigs : list bytes) : tx :=
  form_spend_vault_txout t pubkeys sigs.

Definition create_emergency_vault_tx (vault_txid : bytes) (vault_vout : Z)
    (value : Z) (emer_pubkeys : list bytes) : tx :=
  let txout := emergency_txout emer_pubkeys value in
  create_spend_vault_txout vault_txid vault_vout txout true.

Definition sign_emergency_vault_tx (t : tx) (privkey : bytes)
    (pubkeys : list bytes) (prev_value : Z) (sign_all : bool) : bytes :=
  let sighash := if sign_all then SIGHASH_ALL else ALL_ANYONECANPAY in
  let tx_hash := SignatureHash (vault_script pubkeys) t 0 sighash prev_value in
  ecdsa_sign privkey tx_hash ++ [byte_of_Z sighash].

Definition form_emergency_vault_tx (t : tx) (pubkeys sigs : list bytes) : tx :=
  form_spend_vault_txout t pubkeys sigs.

Definition create_unvault_spend (unvault_txid : bytes) (unvault_vout : Z)
    (txout : CTxOut) (rbf : bool) : tx :=
  let sequence := if rbf then 0xfffffffe else 0xffffffff in
  let txin := {| prevout := {| op_hash := unvault_txid; op_n := unvault_vout |};
                 scriptSig := []; nSequence := sequence |} in
  CMutableTransaction [txin] [txout] 2.

Definition sign_unvault_revault (t : tx) (privkey : bytes)
    (pubkeys : list bytes) (pub_server : bytes) (prev_value : Z)
    (sign_all : bool) : result bytes :=
  let sighash := if sign_all then SIGHASH_ALL else ALL_ANYONECANPAY in
  script ← unvault_script_star pubkeys pub_server;
  let tx_hash := SignatureHash script t 0 sighash prev_value in
  Ok (ecdsa_sign privkey tx_hash ++ [byte_of_Z sighash]).

(** [sigs[::-1]] is [rev sigs]. *)
Definition form_unvault_spend (t : tx) (sigs pubkeys : list bytes)
    (pub_server : bytes) : result tx :=
  script ← unvault_script_star pubkeys pub_server;
  let witness_script := rev sigs ++ [script] in
  Ok (set_wit t [witness_script]).

Definition create_cancel_tx (unvault_txid : bytes) (unvault_vout : Z)
    (pubkeys : list bytes) (value : Z) : tx :=
  let txout := vault_txout pubkeys value in
  create_unvault_spend unvault_txid unvault_vout txout true.

Definition sign_cancel_tx (t : tx) (privkey : bytes) (pubkeys : list bytes)
    (pub_server : bytes) (prev_value : Z) (sign_all : bool) : result bytes :=
  sign_unvault_revault t privkey pubkeys pub_server prev_value sign_all.

Definition form_cancel_tx (t : tx) (sigs pubkeys : list bytes)
    (pub_server : bytes) : result tx :=
  form_unvault_spend t sigs pubkeys pub_server.

Definition create_emer_unvault_tx (unvault_txid : bytes) (unvault_vout : Z)
    (emer_pubkeys : list bytes) (value : Z) : tx :=
  let txout := emergency_txout emer_pubkeys value in
  create_unvault_spend unvault_txid unvault_vout txout true.

Definition sign_emer_unvault_tx (t : tx) (privkey : bytes)
    (pubkeys : list bytes) (pub_server : bytes) (prev_value : Z)
    (sign_all : bool) : result bytes :=
  sign_unvault_revault t privkey pubkeys pub_server prev_value sign_all.

Definition form_emer_unvault_tx (t : tx) (sigs pubkeys : list bytes)
    (pub_server : bytes) : result tx :=
  form_unvault_spend t sigs pubkeys pub_server.

(** [addresses] is a dict from address to amount; its items are visited
    in insertion order. *)
Definition create_spend_tx (unvault_txid : bytes) (unvault_vout : Z)
    (addresses : list (string * Z)) : tx :=
  let txouts := (λ '(address, value),
                   {| nValue := value;
                      scriptPubKey := to_scriptPubKey address |}) <$> addresses in
  let txin := {| prevout := {| op_hash := unvault_txid; op_n := unvault_vout |};
                 scriptSig := []; nSequence := 6 |} in
  CMutableTransaction [txin] txouts 2.

Definition sign_spend_tx (t : tx) (privkey : bytes) (pubkeys : list bytes)
    (pub_server : bytes) (prev_value : Z) : result bytes :=
  script ← unvault_script_star pubkeys pub_server;
  let tx_hash := SignatureHash script t 0 SIGHASH_ALL prev_value in
  Ok (ecdsa_sign privkey tx_hash ++ [byte_of_Z SIGHASH_ALL]).

Definition form_spend_tx (t : tx) (pubkeys : list bytes) (serv_pubkey : bytes)
    (sigs : list bytes) : result tx :=
  script ← unvault_script_star pubkeys serv_pubkey;
  let witness_script := rev sigs ++ [script] in
  Ok (set_wit t [witness_script]).

End transactions.
End Transactions.
Import Transactions.

(** ** The stakeholder engine ([revault/vault.py]) *)

Module Engine.

(** One entry of [Vault.vaults]: the dict built by [add_new_vault]; its
    key ["vout"] is the field [vault_vout]. *)
Record vault := {
  txid : string;
  vault_vout : Z;
  amount : Z;
  pubkeys : list bytes;
  privkey : option bytes;
  address : string;
  emergency_tx : option tx;
  emergency_sigs : list (option bytes);
  emergency_signed : bool;
  unvault_tx : option tx;
  unvault_sigs : list (option bytes);
  unvault_signed : bool;
  cancel_tx : option tx;
  cancel_sigs : list (option bytes);
  unvault_emer_tx : option tx;
  unvault_emer_sigs : list (option bytes);
  unvault_secure : bool;
}.

(** An entry of bitcoind's [listunspent]; the amount is kept in sats,
    where the source converts from BTC on ingest. *)
Record utxo := {
  utxo_txid : string;
  utxo_vout : Z;
  utxo_amount : Z;
  utxo_address : string;
}.

(** The fields of [self] the modelled methods read or write.
    [our_slot] is [self.keychains.index(None)]. *)
Record Vault := {
  our_slot : nat;
  emergency_pubkeys : list bytes;
  cosigner_pubkey : bytes;
  current_index : Z;
  current_gen_index : Z;
  max_index : Z;
  index_treshold : Z;
  vault_addresses : list string;
  unvault_addresses : list string;
  vaults : list vault;
  acked_addresses : list string;
  acked_spends : list string;
}.

(** Calls made to the sig-server and to bitcoind, in program order. *)
Inductive event :=
| SigserverGetFeerate (kind : string) (tx_id : string)
| BitcoindGetFeerate (kind : string)
| SendSignature (tx_id : string) (sig : option bytes)
| GetSignature (tx_id : string) (slot : nat)
| ImportAddress (addr label : string) (rescan : bool)
| ImportMultiExtended (from_index to_index : Z)
| RefuseSpend (tx_id : string) (addresses : list (string * Z))
| AcceptSpend (tx_id : string) (addresses : list (string * Z)).

(** What the collaborators answer.  [tx_feerate] and [bump_feerate] are
    the helpers of [revault/utils.py]. *)
Class Services := {
  get_pubkey_from_path : nat → Z → bytes;
  get_privkey_from_path : Z → bytes;
  GetTxid : tx → bytes;
  lx : string → bytes;
  from_scriptPubKey : bytes → string;
  tx_size : tx → Z;
  sigserver_feerate : string → string → Z;
  bitcoind_feerate : string → Z;
  tx_feerate : tx → option Z → Z;
  bump_feerate : tx → Z → option Z → tx;
}.

Record world := { self : Vault; trace : list event }.

(** State and exceptions: a method runs on the engine and the call
    trace, and either returns or raises; the state reached is kept in
    both cases. *)
Definition M (A : Type) : Type := world → result A * world.

#[global] Instance M_ret : MRet M := λ A a w, (Ok a, w).
#[global] Instance M_bind : MBind M := λ A B k m w,
  match m w with
  | (Ok a, w') => k a w'
  | (Raise e, w') => (Raise e, w')
  end.

Definition raise {A} (e : exn) : M A := λ w, (Raise e, w).
Definition lift {A} (r : result A) : M A := λ w, (r, w).
Definition get_self : M Vault := λ w, (Ok (self w), w).
Definition put_self (s : Vault) : M unit :=
  λ w, (Ok (), {| self := s; trace := trace w |}).
Definition emit (e : event) : M unit :=
  λ w, (Ok (), {| self := self w; trace := trace w ++ [e] |}).
Definition assert (b : bool) : M unit :=
  if b then mret () else raise AssertionError.
(** Dereferencing a field that still holds [None]. *)
Definition deref {A} (o : option A) : M A :=
  match o with
  | Some a => mret a
  | None => raise AttributeError
  end.
(** [l[i] = x] *)
Definition list_assign {A} (l : list A) (i : nat) (x : A) : M (list A) :=
  if decide (i < length l)%nat then mret (<[i := x]> l) else raise IndexError.
(** [l[i]] *)
Definition list_get {A} (l : list A) (i : nat) : M A :=
  match l !! i with
  | Some a => mret a
  | None => raise IndexError
  end.

Definition COIN : Z := 100000000.

(** [None in sigs] *)
Definition none_in (sigs : list (option bytes)) : bool :=
  bool_decide (None ∈ sigs).

(** A table known to hold no [None], as the list of its signatures. *)
Definition the_sigs (sigs : list (option bytes)) : list bytes :=
  omap id sigs.

Definition set_emergency (v : vault) (t : option tx) (sigs : list (option bytes))
    : vault :=
  {| txid := txid v; vault_vout := vault_vout v; amount := amount v;
     pubkeys := pubkeys v; privkey := privkey v; address := address v;
     emergency_tx := t; emergency_sigs := sigs;
     emergency_signed := emergency_signed v;
     unvault_tx := unvault_tx v; unvault_sigs := unvault_sigs v;
     unvault_signed := unvault_signed v;
     cancel_tx := cancel_tx v; cancel_sigs := cancel_sigs v;
     unvault_emer_tx := unvault_emer_tx v;
     unvault_emer_sigs := unvault_emer_sigs v;
     unvault_secure := unvault_secure v |}.

Definition set_unvault (v : vault) (t : option tx) (sigs : list (option bytes))
    : vault :=
  {| txid := txid v; vault_vout := vault_vout v; amount := amount v;
     pubkeys := pubkeys v; privkey := privkey v; address := address v;
     emergency_tx := emergency_tx v; emergency_sigs := emergency_sigs v;
     emergency_signed := emergency_signed v;
     unvault_tx := t; unvault_sigs := sigs;
     unvault_signed := unvault_signed v;
     cancel_tx := cancel_tx v; cancel_sigs := cancel_sigs v;
     unvault_emer_tx := unvault_emer_tx v;
     unvault_emer_sigs := unvault_emer_sigs v;
     unvault_secure := unvault_secure v |}.

Definition set_cancel (v : vault) (t : option tx) (sigs : list (option bytes))
    : vault :=
  {| txid := txid v; vault_vout := vault_vout v; amount := amount v;
     pubkeys := pubkeys v; privkey := privkey v; address := address v;
     emergency_tx := emergency_tx v; emergency_sigs := emergency_sigs v;
     emergency_signed := emergency_signed v;
     unvault_tx := unvault_tx v; unvault_sigs := unvault_sigs v;
     unvault_signed := unvault_signed v;
     cancel_tx := t; cancel_sigs := sigs;
     unvault_emer_tx := unvault_emer_tx v;
     unvault_emer_sigs := unvault_emer_sigs v;
     unvault_secure := unvault_secure v |}.

Definition set_unvault_emer (v : vault) (t : option tx)
    (sigs : list (option bytes)) : vault :=
  {| txid := txid v; vault_vout := vault_vout v; amount := amount v;
     pubkeys := pubkeys v; privkey := privkey v; address := address v;
     emergency_tx := emergency_tx v; emergency_sigs := emergency_sigs v;
     emergency_signed := emergency_signed v;
     unvault_tx := unvault_tx v; unvault_sigs := unvault_sigs v;
     unvault_signed := unvault_signed v;
     cancel_tx := cancel_tx v; cancel_sigs := cancel_sigs v;
     unvault_emer_tx := t; unvault_emer_sigs := sigs;
     unvault_secure := unvault_secure v |}.

Definition set_flags (v : vault) (emer_signed unv_signed unv_secure : bool)
    : vault :=
  {| txid := txid v; vault_vout := vault_vout v; amount := amount v;
     pubkeys := pubkeys v; privkey := privkey v; address := address v;
     emergency_tx := emergency_tx v; emergency_sigs := emergency_sigs v;
     emergency_signed := emer_signed;
     unvault_tx := unvault_tx v; unvault_sigs := unvault_sigs v;
     unvault_signed := unv_signed;
     cancel_tx := cancel_tx v; cancel_sigs := cancel_sigs v;
     unvault_emer_tx := unvault_emer_tx v;
     unvault_emer_sigs := unvault_emer_sigs v;
     unvault_secure := unv_secure |}.

Definition set_keys (v : vault) (pks : list bytes) (sk : option bytes) : vault :=
  {| txid := txid v; vault_vout := vault_vout v; amount := amount v;
     pubkeys := pks; privkey := sk; address := address v;
     emergency_tx := emergency_tx v; emergency_sigs := emergency_sigs v;
     emergency_signed := emergency_signed v;
     unvault_tx := unvault_tx v; unvault_sigs := unvault_sigs v;
     unvault_signed := unvault_signed v;
     cancel_tx := cancel_tx v; cancel_sigs := cancel_sigs v;
     unvault_emer_tx := unvault_emer_tx v;
     unvault_emer_sigs := unvault_emer_sigs v;
     unvault_secure := unvault_secure v |}.

Definition set_unvault_addresses (s : Vault) (l : list string) : Vault :=
  {| our_slot := our_slot s; emergency_pubkeys := emergency_pubkeys s;
     cosigner_pubkey := cosigner_pubkey s; current_index := current_index s;
     current_gen_index := current_gen_index s; max_index := max_index s;
     index_treshold := index_treshold s;
     vault_addresses := vault_addresses s; unvault_addresses := l;
     vaults := vaults s; acked_addresses := acked_addresses s;
     acked_spends := acked_spends s |}.

Definition set_vault_addresses (s : Vault) (l : list string) : Vault :=
  {| our_slot := our_slot s; emergency_pubkeys := emergency_pubkeys s;
     cosigner_pubkey := cosigner_pubkey s; current_index := current_index s;
     current_gen_index := current_gen_index s; max_index := max_index s;
     index_treshold := index_treshold s;
     vault_addresses := l; unvault_addresses := unvault_addresses s;
     vaults := vaults s; acked_addresses := acked_addresses s;
     acked_spends := acked_spends s |}.

Definition set_indexes (s : Vault) (current max : Z) : Vault :=
  {| our_slot := our_slot s; emergency_pubkeys := emergency_pubkeys s;
     cosigner_pubkey := cosigner_pubkey s; current_index := current;
     current_gen_index := current_gen_index s; max_index := max;
     index_treshold := index_treshold s;
     vault_addresses := vault_addresses s;
     unvault_addresses := unvault_addresses s;
     vaults := vaults s; acked_addresses := acked_addresses s;
     acked_spends := acked_spends s |}.

Definition set_vaults (s : Vault) (l : list vault) : Vault :=
  {| our_slot := our_slot s; emergency_pubkeys := emergency_pubkeys s;
     cosigner_pubkey := cosigner_pubkey s; current_index := current_index s;
     current_gen_index := current_gen_index s; max_index := max_index s;
     index_treshold := index_treshold s;
     vault_addresses := vault_addresses s;
     unvault_addresses := unvault_addresses s;
     vaults := l; acked_addresses := acked_addresses s;
     acked_spends := acked_spends s |}.

Definition set_acked_spends (s : Vault) (l : list string) : Vault :=
  {| our_slot := our_slot s; emergency_pubkeys := emergency_pubkeys s;
     cosigner_pubkey := cosigner_pubkey s; current_index := current_index s;
     current_gen_index := current_gen_index s; max_index := max_index s;
     index_treshold := index_treshold s;
     vault_addresses := vault_addresses s;
     unvault_addresses := unvault_addresses s;
     vaults := vaults s; acked_addresses := acked_addresses s;
     acked_spends := l |}.

(** [CKey(vault["privkey"])] while the field still holds [None]. *)
Definition the_key (o : option bytes) : M bytes :=
  match o with
  | Some k => mret k
  | None => raise TypeError
  end.

(** [len(t.vin) == len(t.vout) == 1] *)
Definition one_in_one_out (t : tx) : bool :=
  bool_decide (length (vin t) = length (vout t)) &&
  bool_decide (length (vout t) = 1%nat).

Section methods.
Context `{Crypto} `{Services}.

Definition get_pubkeys (index : Z) : list bytes :=
  (λ slot, get_pubkey_from_path slot index) <$> [0; 1; 2; 3]%nat.

Definition get_vault_address (index : Z) : string :=
  let pubkeys := get_pubkeys index in
  let txo := vault_txout pubkeys 0 in
  from_scriptPubKey (scriptPubKey txo).

(** Appends the addresses of [range(current_index, max_index)] that are
    not yet watched, then has bitcoind import the range. *)
Definition update_watched_addresses : M unit :=
  s ← get_self;
  let addresses :=
    foldl (λ watched i,
             let addr := get_vault_address i in
             if bool_decide (addr ∈ watched) then watched else watched ++ [addr])
          (vault_addresses s)
          (seqZ (current_index s) (max_index s - current_index s)) in
  _ ← put_self (set_vault_addresses s addresses);
  emit (ImportMultiExtended (current_index s) (max_index s)).

(** [for index in range(self.max_index)]: the first index whose
    address is the one given, [None] when the loop runs out. *)
Definition guess_index (s : Vault) (vault_address : string) : option Z :=
  List.find (λ index, bool_decide (vault_address = get_vault_address index))
            (seqZ 0 (max_index s)).

Definition watch_unvault (v : vault) : M unit :=
  t ← deref (unvault_tx v);
  _ ← assert (bool_decide (length (vout t) = 1%nat));
  out ← list_get (vout t) 0;
  let addr := from_scriptPubKey (scriptPubKey out) in
  s ← get_self;
  _ ← (if bool_decide (addr ∈ unvault_addresses s) then mret ()
       else put_self (set_unvault_addresses s (unvault_addresses s ++ [addr])));
  emit (ImportAddress addr "unvault" false).

Definition create_sign_emergency (v : vault) : M (vault * bytes) :=
  s ← get_self;
  let dummy_tx := create_emergency_vault_tx (lx (txid v)) (vault_vout v)
                    COIN (emergency_pubkeys s) in
  _ ← emit (SigserverGetFeerate "emergency" (hex (GetTxid dummy_tx)));
  let feerate := sigserver_feerate "emergency" (hex (GetTxid dummy_tx)) in
  let fees := feerate * tx_size dummy_tx in
  let amount' := amount v - fees in
  let etx := create_emergency_vault_tx (lx (txid v)) (vault_vout v)
               amount' (emergency_pubkeys s) in
  _ ← assert (one_in_one_out etx);
  sk ← the_key (privkey v);
  let sig := sign_emergency_vault_tx etx sk (pubkeys v) (amount v) true in
  sigs ← list_assign (emergency_sigs v) (our_slot s) (Some sig);
  mret (set_emergency v (Some etx) sigs,
        sign_emergency_vault_tx etx sk (pubkeys v) (amount v) false).

Definition create_sign_unvault (v : vault) : M (vault * bytes) :=
  s ← get_self;
  dummy_tx ← lift (create_unvault_tx (lx (txid v)) (vault_vout v) (pubkeys v)
                     (cosigner_pubkey s) COIN);
  _ ← emit (SigserverGetFeerate "cancel" (hex (GetTxid dummy_tx)));
  let feerate := sigserver_feerate "cancel" (hex (GetTxid dummy_tx)) in
  let tx_size' := tx_size dummy_tx in
  let unvault_amount := amount v - feerate * tx_size' in
  utx ← lift (create_unvault_tx (lx (txid v)) (vault_vout v) (pubkeys v)
                (cosigner_pubkey s) unvault_amount);
  sk ← the_key (privkey v);
  mret (set_unvault v (Some utx) (unvault_sigs v),
        sign_unvault_tx utx sk (pubkeys v) (amount v)).

Definition create_sign_cancel (v : vault) : M (vault * bytes) :=
  s ← get_self;
  utx ← deref (unvault_tx v);
  let unvault_txid := GetTxid utx in
  out ← list_get (vout utx) 0;
  let unvault_amount := nValue out in
  _ ← assert (bool_decide (length (vout utx) = 1%nat));
  let dummy_tx := create_cancel_tx unvault_txid 0 (pubkeys v) COIN in
  _ ← emit (SigserverGetFeerate "cancel" (hex (GetTxid dummy_tx)));
  let feerate := sigserver_feerate "cancel" (hex (GetTxid dummy_tx)) in
  let tx_size' := tx_size dummy_tx in
  let cancel_amount := unvault_amount - feerate * tx_size' in
  let ctx := create_cancel_tx unvault_txid 0 (pubkeys v) cancel_amount in
  _ ← assert (one_in_one_out ctx);
  sk ← the_key (privkey v);
  sig ← lift (sign_cancel_tx ctx sk (pubkeys v) (cosigner_pubkey s)
                unvault_amount true);
  sigs ← list_assign (cancel_sigs v) (our_slot s) (Some sig);
  shared ← lift (sign_cancel_tx ctx sk (pubkeys v) (cosigner_pubkey s)
                   unvault_amount false);
  mret (set_cancel v (Some ctx) sigs, shared).

(** The signature kept in the own slot is produced by the same call
    as the shared one: [sign_all] is left at its default in both. *)
Definition create_sign_unvault_emer (v : vault) : M (vault * bytes) :=
  s ← get_self;
  utx ← deref (unvault_tx v);
  let unvault_txid := GetTxid utx in
  out ← list_get (vout utx) 0;
  let unvault_amount := nValue out in
  let dummy_tx := create_emer_unvault_tx unvault_txid 0
                    (emergency_pubkeys s) COIN in
  _ ← emit (SigserverGetFeerate "emergency" (hex (GetTxid dummy_tx)));
  let feerate := sigserver_feerate "emergency" (hex (GetTxid dummy_tx)) in
  let tx_size' := tx_size dummy_tx in
  let emer_amount := unvault_amount - feerate * tx_size' in
  let uetx := create_emer_unvault_tx unvault_txid 0 (emergency_pubkeys s)
                emer_amount in
  _ ← assert (one_in_one_out uetx);
  sk ← the_key (privkey v);
  sig ← lift (sign_emer_unvault_tx uetx sk (pubkeys v) (cosigner_pubkey s)
                unvault_amount false);
  sigs ← list_assign (unvault_emer_sigs v) (our_slot s) (Some sig);
  shared ← lift (sign_emer_unvault_tx uetx sk (pubkeys v) (cosigner_pubkey s)
                   unvault_amount false);
  mret (set_unvault_emer v (Some uetx) sigs, shared).

(** The [form_*] calls of the four methods below also attach the
    witness to the template held by the vault; no method reads a
    template's witness. *)
Definition get_signed_emergency_tx (v : vault) : M (option tx) :=
  if none_in (emergency_sigs v) then mret None else
  s ← get_self;
  etx ← deref (emergency_tx v);
  let feerate := tx_feerate etx None in
  _ ← emit (BitcoindGetFeerate "emergency");
  let minimal_feerate := bitcoind_feerate "emergency" in
  if feerate <? minimal_feerate then
    sk ← the_key (privkey v);
    let sig := sign_emergency_vault_tx etx sk (pubkeys v) (amount v) false in
    sigs ← list_assign (emergency_sigs v) (our_slot s) (Some sig);
    let t := form_emergency_vault_tx etx (pubkeys v) (the_sigs sigs) in
    mret (Some (bump_feerate t (minimal_feerate - feerate) None))
  else
    mret (Some (form_emergency_vault_tx etx (pubkeys v)
                  (the_sigs (emergency_sigs v)))).

Definition get_signed_unvault_tx (v : vault) : M (option tx) :=
  if none_in (unvault_sigs v) then mret None else
  utx ← deref (unvault_tx v);
  mret (Some (form_unvault_tx utx (pubkeys v) (the_sigs (unvault_sigs v)))).

Definition get_signed_cancel_tx (v : vault) : M (option tx) :=
  if none_in (cancel_sigs v) then mret None else
  s ← get_self;
  utx ← deref (unvault_tx v);
  out ← list_get (vout utx) 0;
  let unvault_amount := nValue out in
  ctx ← deref (cancel_tx v);
  let feerate := tx_feerate ctx (Some unvault_amount) in
  _ ← emit (BitcoindGetFeerate "cancel");
  let minimal_feerate := bitcoind_feerate "cancel" in
  if feerate <? minimal_feerate then
    sk ← the_key (privkey v);
    sig ← lift (sign_cancel_tx ctx sk (pubkeys v) (cosigner_pubkey s)
                  unvault_amount false);
    sigs ← list_assign (cancel_sigs v) (our_slot s) (Some sig);
    t ← lift (form_cancel_tx ctx (the_sigs sigs) (pubkeys v)
                (cosigner_pubkey s));
    mret (Some (bump_feerate t (minimal_feerate - feerate)
                  (Some unvault_amount)))
  else
    t ← lift (form_cancel_tx ctx (the_sigs (cancel_sigs v)) (pubkeys v)
                (cosigner_pubkey s));
    mret (Some t).

Definition get_signed_unvault_emergency_tx (v : vault) : M (option tx) :=
  if none_in (unvault_emer_sigs v) then mret None else
  s ← get_self;
  utx ← deref (unvault_tx v);
  out ← list_get (vout utx) 0;
  let unvault_amount := nValue out in
  uetx ← deref (unvault_emer_tx v);
  let feerate := tx_feerate uetx (Some unvault_amount) in
  _ ← emit (BitcoindGetFeerate "cancel");
  let minimal_feerate := bitcoind_feerate "cancel" in
  if feerate <? minimal_feerate then
    sk ← the_key (privkey v);
    sig ← lift (sign_emer_unvault_tx uetx sk (pubkeys v) (cosigner_pubkey s)
                  unvault_amount false);
    sigs ← list_assign (unvault_emer_sigs v) (our_slot s) (Some sig);
    t ← lift (form_emer_unvault_tx uetx (the_sigs sigs) (pubkeys v)
                (cosigner_pubkey s));
    mret (Some (bump_feerate t (minimal_feerate - feerate)
                  (Some unvault_amount)))
  else
    t ← lift (form_emer_unvault_tx uetx (the_sigs (unvault_emer_sigs v))
                (pubkeys v) (cosigner_pubkey s));
    mret (Some t).

(** The dict a new vault starts from. *)
Definition new_vault (output : utxo) : vault :=
  {| txid := utxo_txid output; vault_vout := utxo_vout output;
     amount := utxo_amount output;
     pubkeys := []; privkey := None; address := utxo_address output;
     emergency_tx := None;
     emergency_sigs := [None; None; None; None];
     emergency_signed := false;
     unvault_tx := None;
     unvault_sigs := [None; None; None; None];
     unvault_signed := false;
     cancel_tx := None;
     cancel_sigs := [None; None; None; None];
     unvault_emer_tx := None;
     unvault_emer_sigs := [None; None; None; None];
     unvault_secure := false |}.

Definition txid_hex (t : option tx) : M string :=
  t' ← deref t; mret (hex (GetTxid t')).

Definition add_new_vault (output : utxo) : M unit :=
  let v := new_vault output in
  s ← get_self;
  match guess_index s (address v) with
  | None => raise (Exception "No such vault script with our known pubkeys !")
  | Some index =>
      let v := set_keys v (get_pubkeys index)
                 (Some (get_privkey_from_path index)) in
      '(v, shared_emer_sig) ← create_sign_emergency v;
      '(v, unvault_sig) ← create_sign_unvault v;
      sigs ← list_assign (unvault_sigs v) (our_slot s) (Some unvault_sig);
      let v := set_unvault v (unvault_tx v) sigs in
      _ ← watch_unvault v;
      '(v, cancel_sig) ← create_sign_cancel v;
      '(v, unvault_emer_sig) ← create_sign_unvault_emer v;
      id_emer ← txid_hex (emergency_tx v);
      _ ← emit (SendSignature id_emer (Some shared_emer_sig));
      id_cancel ← txid_hex (cancel_tx v);
      _ ← emit (SendSignature id_cancel (Some cancel_sig));
      id_unvault_emer ← txid_hex (unvault_emer_tx v);
      _ ← emit (SendSignature id_unvault_emer (Some unvault_emer_sig));
      s' ← get_self;
      put_self (set_vaults s' (vaults s' ++ [v]))
  end.

(** The body of the [for utxo in new_vaults] loop of [poll_for_funds]:
    ingest, then slide the derivation window by one. *)
Definition poll_for_funds_new_vault (output : utxo) : M unit :=
  _ ← add_new_vault output;
  s ← get_self;
  let s' := set_indexes s (current_index s + 1) (max_index s + 1) in
  _ ← put_self s';
  if index_treshold s' - 20 <? current_index s'
  then update_watched_addresses
  else mret ().

(** [new_vaults] of [poll_for_funds]: the reported UTXOs whose txid no
    known vault carries. *)
Definition new_vaults (s : Vault) (current_utxos : list utxo) : list utxo :=
  filter (λ u, utxo_txid u ∉ txid <$> vaults s) current_utxos.

(** The body of the [for txid in ...] loop of [poll_for_spends], for
    one proposal [spends[txid]]; the caller appends [txid] to
    [known_spends] afterwards. *)
Definition examine_spend (tx_id : string) (addresses : list (string * Z))
    : M unit :=
  s ← get_self;
  let valid_addresses := vault_addresses s ++ acked_addresses s in
  if existsb (λ address, bool_decide (address ∉ valid_addresses))
             (addresses.*1)
  then emit (RefuseSpend tx_id addresses)
  else if existsb (λ address, bool_decide (address ∉ acked_addresses s))
                  (addresses.*1)
  then emit (RefuseSpend tx_id addresses)
  else
    _ ← emit (AcceptSpend tx_id addresses);
    put_self (set_acked_spends s (acked_spends s ++ [tx_id])).

Fixpoint examine_spends (todo : list (string * list (string * Z)))
    (known_spends : list string) : M (list string) :=
  match todo with
  | [] => mret known_spends
  | (tx_id, addresses) :: todo' =>
      _ ← examine_spend tx_id addresses;
      examine_spends todo' (known_spends ++ [tx_id])
  end.

(** One wake-up of [poll_for_spends] on the answer [spends] of
    [get_spends()]; returns the updated [known_spends]. *)
Definition poll_for_spends_once (spends : list (string * list (string * Z)))
    (known_spends : list string) : M (list string) :=
  examine_spends
    (filter (λ p, p.1 ∉ known_spends) spends) known_spends.

Definition set_gen_index (s : Vault) (gen : Z) : Vault :=
  {| our_slot := our_slot s; emergency_pubkeys := emergency_pubkeys s;
     cosigner_pubkey := cosigner_pubkey s; current_index := current_index s;
     current_gen_index := gen; max_index := max_index s;
     index_treshold := index_treshold s;
     vault_addresses := vault_addresses s;
     unvault_addresses := unvault_addresses s;
     vaults := vaults s; acked_addresses := acked_addresses s;
     acked_spends := acked_spends s |}.

(** Hands out the vault address of [current_gen_index] and bumps that
    index; the derivation window is left to [poll_for_funds]. *)
Definition getnewaddress : M string :=
  s ← get_self;
  let addr := get_vault_address (current_gen_index s) in
  let s' := set_gen_index s (current_gen_index s + 1) in
  _ ← put_self s';
  _ ← (if index_treshold s' - 20 <? current_gen_index s'
       then update_watched_addresses
       else mret ());
  mret addr.

End methods.

(** *** The signature fetchers

    [update_all_signatures] starts, for each vault, one thread running
    [update_emergency_signatures] and one running
    [update_unvault_revocations] (or [update_unvault_transaction] alone
    once the vault is secure).  A thread is a position in that code; it
    advances on what its environment hands it: the stop event, the
    sig-server's answer, bitcoind's verdict.  Each step is atomic;
    [vaults_lock] only restricts the interleavings further (a thread
    whose assertion fails inside the critical section keeps the lock). *)

Inductive table := Emergency | UnvaultEmer | Cancel | Unvault.

#[global] Instance table_eq_decision : EqDecision table.
Proof. solve_decision. Defined.

Inductive loop_pc :=
| AtEntry               (* txid = vault[...].GetTxid().hex() *)
| AtWhile               (* while None in vault[...] *)
| AtWait                (* if self.update_sigs_stop.wait(3.0): return *)
| AtSlot (i : nat).     (* body of: for i in range(1, 5) *)

Inductive thread :=
| Polling (k : table) (pc : loop_pc)
| AtMempoolCheck        (* update_emergency_signatures, after its loop *)
| AtGate                (* update_unvault_revocations, after both polls *)
| Returned
| Died (e : exn).

Inductive input :=
| Tick
| StopSignal (is_set : bool)
| Response (sig : option bytes)
| MempoolVerdict (accepted : bool).

Record system := {
  sys_vault : vault;
  sys_trace : list event;
  sys_threads : list thread;
}.

Inductive action :=
| Run (n : nat) (inp : input)
| Spawn.

Definition sigs_of (k : table) (v : vault) : list (option bytes) :=
  match k with
  | Emergency => emergency_sigs v
  | UnvaultEmer => unvault_emer_sigs v
  | Cancel => cancel_sigs v
  | Unvault => unvault_sigs v
  end.

Definition template_of (k : table) (v : vault) : option tx :=
  match k with
  | Emergency => emergency_tx v
  | UnvaultEmer => unvault_emer_tx v
  | Cancel => cancel_tx v
  | Unvault => unvault_tx v
  end.

Definition store_sigs (k : table) (v : vault) (sigs : list (option bytes))
    : vault :=
  match k with
  | Emergency => set_emergency v (emergency_tx v) sigs
  | UnvaultEmer => set_unvault_emer v (unvault_emer_tx v) sigs
  | Cancel => set_cancel v (cancel_tx v) sigs
  | Unvault => set_unvault v (unvault_tx v) sigs
  end.

(** The critical section of [update_emergency_signatures],
    [update_unvault_emergency] and [update_cancel_unvault], entered when
    slot [i] holds [None]:
      sig = get_signature(txid, i);
      if sig is not None: assert sig[-1] == ALL_ANYONECANPAY; table[i - 1] = sig *)
Definition fetch_asserting (sigs : list (option bytes)) (i : nat)
    (resp : option bytes) : result (list (option bytes)) :=
  match resp with
  | None => Ok sigs
  | Some sig =>
      match last sig with
      | None => Raise IndexError
      | Some flag =>
          if Z_of_byte flag =? ALL_ANYONECANPAY
          then Ok (<[(i - 1)%nat := Some sig]> sigs)
          else Raise AssertionError
      end
  end.

(** The critical section of [update_unvault_transaction]:
      table[i - 1] = get_signature(txid, i) *)
Definition fetch_storing (sigs : list (option bytes)) (i : nat)
    (resp : option bytes) : result (list (option bytes)) :=
  Ok (<[(i - 1)%nat := resp]> sigs).

Definition fetch (k : table) : list (option bytes) → nat → option bytes →
                               result (list (option bytes)) :=
  match k with
  | Unvault => fetch_storing
  | _ => fetch_asserting
  end.

(** Where control goes when the [while] condition turns false. *)
Definition after_loop (k : table) (v : vault) : thread * vault :=
  match k with
  | Emergency => (AtMempoolCheck, v)
  | UnvaultEmer => (Polling Cancel AtEntry, v)
  | Cancel => (AtGate, v)
  | Unvault =>
      (Returned, set_flags v (emergency_signed v) true (unvault_secure v))
  end.

(** Where control goes on the [return] taken when the stop event is set. *)
Definition after_stop (k : table) : thread :=
  match k with
  | Emergency => Returned
  | UnvaultEmer => Polling Cancel AtEntry
  | Cancel => AtGate
  | Unvault => Returned
  end.

Definition next_slot (i : nat) : loop_pc :=
  if decide (i < 4)%nat then AtSlot (S i) else AtWhile.

Section fetchers.
Context `{Services}.
Variable own : nat.

Definition thread_step (inp : input) (th : thread) (v : vault)
    (tr : list event) : option (thread * vault * list event) :=
  match th, inp with
  | Polling k AtEntry, Tick =>
      match template_of k v with
      | Some _ => Some (Polling k AtWhile, v, tr)
      | None => Some (Died AttributeError, v, tr)
      end
  | Polling k AtWhile, Tick =>
      if none_in (sigs_of k v) then Some (Polling k AtWait, v, tr)
      else let '(th', v') := after_loop k v in Some (th', v', tr)
  | Polling k AtWait, StopSignal is_set =>
      if is_set then Some (after_stop k, v, tr)
      else Some (Polling k (AtSlot 1), v, tr)
  | Polling k (AtSlot i), _ =>
      match sigs_of k v !! (i - 1)%nat, inp with
      | None, Tick => Some (Died IndexError, v, tr)
      | Some (Some _), Tick => Some (Polling k (next_slot i), v, tr)
      | Some None, Response resp =>
          match template_of k v with
          | None => None
          | Some t =>
              let tr' := tr ++ [GetSignature (hex (GetTxid t)) i] in
              match fetch k (sigs_of k v) i resp with
              | Ok sigs' =>
                  Some (Polling k (next_slot i), store_sigs k v sigs', tr')
              | Raise e => Some (Died e, v, tr')
              end
          end
      | _, _ => None
      end
  | AtMempoolCheck, MempoolVerdict accepted =>
      if accepted
      then Some (Returned,
                 set_flags v true (unvault_signed v) (unvault_secure v), tr)
      else Some (Died AssertionError, v, tr)
  | AtGate, Tick =>
      if none_in (unvault_emer_sigs v ++ cancel_sigs v)
      then Some (Returned, v, tr)
      else
        let v' := set_flags v (emergency_signed v) (unvault_signed v) true in
        match unvault_tx v with
        | None => Some (Died AttributeError, v', tr)
        | Some t =>
            match unvault_sigs v !! own with
            | None => Some (Died IndexError, v', tr)
            | Some sig =>
                Some (Polling Unvault AtEntry, v',
                      tr ++ [SendSignature (hex (GetTxid t)) sig])
            end
        end
  | _, _ => None
  end.

(** The threads [update_all_signatures] starts for a vault. *)
Definition spawn (v : vault) : list thread :=
  (if emergency_signed v then [] else [Polling Emergency AtEntry]) ++
  (if negb (unvault_secure v) then [Polling UnvaultEmer AtEntry]
   else if negb (unvault_signed v) then [Polling Unvault AtEntry]
   else []).

Definition exec (a : action) (s : system) : option system :=
  match a with
  | Run n inp =>
      th ← sys_threads s !! n;
      '(th', v', tr') ← thread_step inp th (sys_vault s) (sys_trace s);
      Some {| sys_vault := v'; sys_trace := tr';
              sys_threads := <[n := th']> (sys_threads s) |}
  | Spawn =>
      Some {| sys_vault := sys_vault s; sys_trace := sys_trace s;
              sys_threads := sys_threads s ++ spawn (sys_vault s) |}
  end.

(** One step of the interleaved system. *)
Definition step (s s' : system) : Prop := ∃ a, exec a s = Some s'.

Fixpoint run (schedule : list action) (s : system) : option system :=
  match schedule with
  | [] => Some s
  | a :: schedule' => s' ← exec a s; run schedule' s'
  end.

(** The local unvault signature has been handed to the sig-server. *)
Definition unvault_published (s : system) : Prop :=
  ∃ t sig, unvault_tx (sys_vault s) = Some t ∧
           SendSignature (hex (GetTxid t)) sig ∈ sys_trace s.

Definition complete (sigs : list (option bytes)) : Prop := None ∉ sigs.

(** The tx ids under which [send_signature] was called. *)
Definition sent_ids (tr : list event) : list string :=
  omap (λ e, match e with SendSignature id _ => Some id | _ => None end) tr.

Definition unvault_publishedb (s : system) : bool :=
  match unvault_tx (sys_vault s) with
  | Some t => bool_decide (hex (GetTxid t) ∈ sent_ids (sys_trace s))
  | None => false
  end.

(** How one step of a fetcher may change the vault and the call trace:
    templates stay; a revocation table only gains signatures flagged
    0x81 and, once complete, stays complete; [unvault_secure] is never
    reset; the trace gains nothing, or one [get_signature] call, or the
    publication of the unvault signature -- the latter only in a vault
    whose cancel and unvault-emergency tables are complete and which is
    marked secure. *)
Definition step_effect (v : vault) (tr : list event) (v' : vault)
    (tr' : list event) : Prop :=
  (∀ k, template_of k v' = template_of k v)
  ∧ (∀ k sig, k ≠ Unvault → Some sig ∈ sigs_of k v' →
              Some sig ∈ sigs_of k v ∨ sighash_flag sig = Some x81)
  ∧ (∀ k, k ≠ Unvault → complete (sigs_of k v) → complete (sigs_of k v'))
  ∧ (unvault_secure v = true → unvault_secure v' = true)
  ∧ (tr' = tr
     ∨ (∃ id n, tr' = tr ++ [GetSignature id n])
     ∨ (∃ t sig, unvault_tx v = Some t
                 ∧ tr' = tr ++ [SendSignature (hex (GetTxid t)) sig]
                 ∧ complete (cancel_sigs v') ∧ complete (unvault_emer_sigs v')
                 ∧ unvault_secure v' = true)).

End fetchers.

End Engine.

(** ** A small concrete deployment

    Stand-ins for the collaborators, simple enough to evaluate, on which
    the general statements below are exercised. *)

Module Toy.

Definition crypto : Crypto :=
  {| sha256 := λ b, b;
     ecdsa_sign := λ privkey tx_hash, privkey ++ tx_hash;
     SignatureHash := λ script t in_idx hashtype amount, [byte_of_Z hashtype];
     to_scriptPubKey := list_byte_of_string |}.

Definition services : Engine.Services :=
  {| Engine.get_pubkey_from_path := λ slot index,
       le_bytes 2 index ++ [byte_of_Z (Z.of_nat slot)];
     Engine.get_privkey_from_path := λ index, le_bytes 2 index;
     Engine.GetTxid := λ t,
       match vin t, vout t with
       | i :: _, o :: _ =>
           le_bytes 4 (nSequence i) ++ take 2 (op_hash (prevout i))
             ++ take 4 (scriptPubKey o)
       | _, _ => []
       end;
     Engine.lx := list_byte_of_string;
     Engine.from_scriptPubKey := hex;
     Engine.tx_size := λ _, 100;
     Engine.sigserver_feerate := λ _ _, 1;
     Engine.bitcoind_feerate := λ _, 2;
     Engine.tx_feerate := λ _ _, 2;
     Engine.bump_feerate := λ t _ _, t |}.

Definition emergency_keys : list bytes :=
  [x02 :: repeat x0a 32; x02 :: repeat x0b 32;
   x03 :: repeat x0c 32; x03 :: repeat x0d 32].

Definition cosigner_key : bytes := x02 :: repeat xcc 32.

(** The engine as [__init__] sets it up for stakeholder 1 started at
    [current_index = start], with one acknowledged destination, before
    its first call of [update_watched_addresses]. *)
Definition blank (start : Z) : Engine.Vault :=
  {| Engine.our_slot := 0;
     Engine.emergency_pubkeys := emergency_keys;
     Engine.cosigner_pubkey := cosigner_key;
     Engine.current_index := start;
     Engine.current_gen_index := start;
     Engine.max_index := start + 500;
     Engine.index_treshold := start + 500;
     Engine.vault_addresses := [];
     Engine.unvault_addresses := [];
     Engine.vaults := [];
     Engine.acked_addresses := ["acked_addr"%string];
     Engine.acked_spends := [] |}.

(** The engine once [__init__] has derived the watched addresses (lemma
    [engine_watches] below: this is what [update_watched_addresses]
    leaves). *)
Definition engine (start : Z) : Engine.Vault :=
  Engine.set_vault_addresses (blank start)
    (@Engine.get_vault_address crypto services <$> seqZ start 500).

(** A deposit of 1 BTC to the vault address of derivation index [index]. *)
Definition deposit (index : Z) : Engine.utxo :=
  {| Engine.utxo_txid := "f00d";
     Engine.utxo_vout := 0;
     Engine.utxo_amount := 100000000;
     Engine.utxo_address := @Engine.get_vault_address crypto services index |}.

Definition start_world (start : Z) : Engine.world :=
  {| Engine.self := engine start; Engine.trace := [] |}.

(** The world after the funds poller has ingested [deposit 0] into an
    engine started at index 0. *)
Definition ingested : Engine.world :=
  snd (@Engine.poll_for_funds_new_vault crypto services (deposit 0)
         (start_world 0)).

Definition fresh_vault : option Engine.vault :=
  Engine.vaults (Engine.self ingested) !! 0%nat.

(** A signature a peer could have posted: any body, then the flag byte. *)
Definition peer_sig (slot : Z) (flag : byte) : bytes :=
  [x30; byte_of_Z slot; flag].

(** A proposal paying an acknowledged address, with change back to a
    watched vault address. *)
Definition spend_with_change : list (string * Z) :=
  [("acked_addr"%string, 10000);
   (@Engine.get_vault_address crypto services 5, 90000)].

(** The vault record that ingest appended. *)
Definition vault0 : Engine.vault :=
  default (Engine.new_vault (deposit 0)) fresh_vault.

(** The fetchers [update_all_signatures] starts for it: thread 0 runs
    [update_emergency_signatures], thread 1 [update_unvault_revocations]. *)
Definition system0 : Engine.system :=
  {| Engine.sys_vault := vault0;
     Engine.sys_trace := Engine.trace ingested;
     Engine.sys_threads := Engine.spawn vault0 |}.

(** One pass of thread [n] through a polling loop in which the stop event
    is clear, the own slot 1 is already filled and the sig-server answers
    with the peers' signatures for slots 2, 3 and 4; the last step finds
    the table full and leaves the loop. *)
Definition poll_round (n : nat) (flag : byte) : list Engine.action :=
  [Engine.Run n Engine.Tick;
   Engine.Run n Engine.Tick;
   Engine.Run n (Engine.StopSignal false);
   Engine.Run n Engine.Tick;
   Engine.Run n (Engine.Response (Some (peer_sig 2 flag)));
   Engine.Run n (Engine.Response (Some (peer_sig 3 flag)));
   Engine.Run n (Engine.Response (Some (peer_sig 4 flag)));
   Engine.Run n Engine.Tick].

(** Thread 1 alone: both revocation polls, then the gate. *)
Definition revocations_schedule : list Engine.action :=
  poll_round 1 x81 ++ poll_round 1 x81 ++ [Engine.Run 1 Engine.Tick].

(** The state in which thread 1 has just passed the gate, thread 0 not
    having moved. *)
Definition gate_passed : Engine.system :=
  default system0 (@Engine.run services 0 revocations_schedule system0).

(** Thread 1 goes on to collect the peers' SIGHASH_ALL unvault signatures. *)
Definition unvault_collected : Engine.system :=
  default gate_passed (@Engine.run services 0 (poll_round 1 x01) gate_passed).

(** A later deposit, from another transaction, to the address of index 0
    again. *)
Definition reuse : Engine.utxo :=
  {| Engine.utxo_txid := "cafe";
     Engine.utxo_vout := 0;
     Engine.utxo_amount := 2500000;
     Engine.utxo_address := @Engine.get_vault_address crypto services 0 |}.

(** A UTXO reported at an address no derivation index produces. *)
Definition stray : Engine.utxo :=
  {| Engine.utxo_txid := "beef";
     Engine.utxo_vout := 1;
     Engine.utxo_amount := 5000;
     Engine.utxo_address := "not_a_vault_address" |}.

(** As [crypto], with a digest of the length SHA-256 has: the first 32
    bytes of the zero-padded input. *)
Definition crypto32 : Crypto :=
  {| sha256 := λ b, take 32 (b ++ repeat x00 32);
     ecdsa_sign := λ privkey tx_hash, privkey ++ tx_hash;
     SignatureHash := λ script t in_idx hashtype amount, [byte_of_Z hashtype];
     to_scriptPubKey := list_byte_of_string |}.

(** An engine whose generation index has reached the end of its
    derivation window: 500 addresses handed out, no deposit seen. *)
Definition exhausted : Engine.world :=
  {| Engine.self := Engine.set_gen_index (engine 0) 500; Engine.trace := [] |}.

End Toy.

(** ** Vocabulary of the statements *)

(** [t'] differs from [t] at most in its witness. *)
Definition same_body (t t' : tx) : Prop :=
  vin t' = vin t ∧ vout t' = vout t ∧
  nVersion t' = nVersion t ∧ nLockTime t' = nLockTime t.

(** The sequence numbers of a transaction's inputs, in order. *)
Definition sequences (t : tx) : list Z := nSequence <$> vin t.

(** The kinds under which a run asked for a target fee-rate, from the
    sig-server or from bitcoind, in call order. *)
Definition feerate_keys (tr : list Engine.event) : list string :=
  omap (λ e, match e with
             | Engine.SigserverGetFeerate kind _ => Some kind
             | Engine.BitcoindGetFeerate kind => Some kind
             | _ => None
             end) tr.

(** [m] asks for a target fee-rate at most once, and then under [key]. *)
Definition asks_only (key : string) {A} (m : Engine.M A) : Prop :=
  ∀ w, ∃ ks, feerate_keys (Engine.trace (snd (m w)))
             = feerate_keys (Engine.trace w) ++ ks
             ∧ (ks = [] ∨ ks = [key]).

(** The message [add_new_vault] raises with. *)
Definition no_such_vault : exn :=
  Exception "No such vault script with our known pubkeys !".

(** * Properties of the transaction module *)

Section transaction_facts.
Context `{Crypto}.

Lemma sighash_in_range :
  0 ≤ SIGHASH_ALL < 256 ∧ 0 ≤ ALL_ANYONECANPAY < 256.
Proof. repeat split; by vm_compute. Qed.

Lemma flag_bytes :
  byte_of_Z SIGHASH_ALL = x01 ∧ byte_of_Z ALL_ANYONECANPAY = x81.
Proof. split; reflexivity. Qed.

Lemma sighash_flag_snoc (body : bytes) (flag : byte) :
  sighash_flag (body ++ [flag]) = Some flag.
Proof. unfold sighash_flag. apply last_snoc. Qed.

Lemma unvault_script_star_four (p1 p2 p3 p4 srv : bytes) :
  unvault_script_star [p1; p2; p3; p4] srv = Ok (unvault_script p1 p2 p3 p4 srv).
Proof. reflexivity. Qed.

Lemma unvault_script_star_cases (pubkeys : list bytes) (srv : bytes) :
  (∃ p1 p2 p3 p4, pubkeys = [p1; p2; p3; p4] ∧
     unvault_script_star pubkeys srv = Ok (unvault_script p1 p2 p3 p4 srv))
  ∨ (length pubkeys ≠ 4%nat ∧ unvault_script_star pubkeys srv = Raise TypeError).
Proof.
  destruct pubkeys as [|p1 [|p2 [|p3 [|p4 [|p5 rest]]]]];
    try (right; split; [cbn; lia | reflexivity]).
  left. by exists p1, p2, p3, p4.
Qed.

Lemma push_33 (key : bytes) :
  length key = 33%nat → encode_op_pushdata key = x21 :: key.
Proof. intros Hlen. unfold encode_op_pushdata. by rewrite Hlen. Qed.

Lemma same_body_set_wit (t : tx) (w : list (list bytes)) :
  same_body t (set_wit t w).
Proof. by repeat split. Qed.

(** C3. Whatever the key, the transaction, the pubkeys and the amount:
    the unvault signature and the spend signature end in the flag byte
    SIGHASH_ALL (0x01), which has the ANYONECANPAY bit clear; the
    revocation signatures made with [sign_all] left [False] end in
    SIGHASH_ALL|SIGHASH_ANYONECANPAY (0x81).  The two signers that build
    the unvault script either return such a signature or, when the pubkey
    list does not unpack to four keys, raise [TypeError]. *)
Theorem sighash_policy (t : tx) (privkey : bytes) (pubkeys : list bytes)
    (pub_server : bytes) (prev_value : Z) :
  sighash_flag (sign_unvault_tx t privkey pubkeys prev_value) = Some x01
  ∧ match sign_spend_tx t privkey pubkeys pub_server prev_value with
    | Ok sig => sighash_flag sig = Some x01
    | Raise e => e = TypeError ∧ length pubkeys ≠ 4%nat
    end
  ∧ match sign_unvault_revault t privkey pubkeys pub_server prev_value false with
    | Ok sig => sighash_flag sig = Some x81
    | Raise e => e = TypeError ∧ length pubkeys ≠ 4%nat
    end
  ∧ sighash_flag (sign_emergency_vault_tx t privkey pubkeys prev_value false)
    = Some x81
  ∧ Z_of_byte x01 = SIGHASH_ALL
  ∧ Z.land (Z_of_byte x01) SIGHASH_ANYONECANPAY = 0
  ∧ Z_of_byte x81 = Z.lor SIGHASH_ALL SIGHASH_ANYONECANPAY.
Proof.
  destruct flag_bytes as [Hall Hany].
  split; [|split; [|split; [|split]]].
  - unfold sign_unvault_tx. rewrite Hall. apply sighash_flag_snoc.
  - unfold sign_spend_tx.
    destruct (unvault_script_star_cases pubkeys pub_server)
      as [(p1 & p2 & p3 & p4 & _ & ->) | [Hlen ->]]; cbn.
    + rewrite Hall. apply sighash_flag_snoc.
    + done.
  - unfold sign_unvault_revault.
    destruct (unvault_script_star_cases pubkeys pub_server)
      as [(p1 & p2 & p3 & p4 & _ & ->) | [Hlen ->]]; cbn.
    + change (byte_of_Z (Z.lor SIGHASH_ALL SIGHASH_ANYONECANPAY))
        with (byte_of_Z ALL_ANYONECANPAY).
      rewrite Hany. apply sighash_flag_snoc.
    + done.
  - unfold sign_emergency_vault_tx. rewrite Hany. apply sighash_flag_snoc.
  - by repeat split.
Qed.

(** C4. With four signatures and four pubkeys, the witness attached by
    [form_spend_vault_txout] is the single stack
    [empty, sig1, sig2, sig3, sig4, vault script], and the one attached by
    [form_unvault_spend] is [sig4, sig3, sig2, sig1, unvault script], with
    no leading empty element. *)
Theorem witness_stacks (t : tx) (sig1 sig2 sig3 sig4 p1 p2 p3 p4 : bytes)
    (pub_server : bytes) :
  wit (form_spend_vault_txout t [p1; p2; p3; p4] [sig1; sig2; sig3; sig4])
  = [[[]; sig1; sig2; sig3; sig4; vault_script [p1; p2; p3; p4]]]
  ∧ wit <$> form_unvault_spend t [sig1; sig2; sig3; sig4] [p1; p2; p3; p4]
              pub_server
    = Ok [[sig4; sig3; sig2; sig1; unvault_script p1 p2 p3 p4 pub_server]].
Proof. split; reflexivity. Qed.

(** C5 (amended). For four 33-byte emergency pubkeys the script is the
    two-byte push of 4464, little-endian (02 70 11), then
    OP_CHECKSEQUENCEVERIFY, OP_DROP, and the 4-of-4 multisig
    OP_4 <e1> <e2> <e3> <e4> OP_4 OP_CHECKMULTISIG, each key pushed behind
    its length byte 0x21. *)
Theorem emergency_script_bytes (e1 e2 e3 e4 : bytes) :
  length e1 = 33%nat → length e2 = 33%nat →
  length e3 = 33%nat → length e4 = 33%nat →
  emergency_script [e1; e2; e3; e4]
  = [x02; x70; x11; OP_CHECKSEQUENCEVERIFY; OP_DROP; OP_4]
    ++ (x21 :: e1) ++ (x21 :: e2) ++ (x21 :: e3) ++ (x21 :: e4)
    ++ [OP_4; OP_CHECKMULTISIG].
Proof.
  intros H1 H2 H3 H4. unfold emergency_script, CScript. cbn.
  rewrite (push_33 e1 H1), (push_33 e2 H2), (push_33 e3 H3), (push_33 e4 H4).
  reflexivity.
Qed.

(** C6. Every template has nVersion 2 and a single input, whose
    nSequence is 0xFFFFFFFF for the unvault, 0xFFFFFFFE for the cancel, the
    vault emergency and the unvault emergency, and 6 for the spend. *)
Theorem template_version_and_sequence (prev_txid : bytes) (prev_vout value : Z)
    (p1 p2 p3 p4 pub_server : bytes) (emer_pubkeys : list bytes)
    (addresses : list (string * Z)) :
  (λ t, (nVersion t, sequences t))
    <$> create_unvault_tx prev_txid prev_vout [p1; p2; p3; p4] pub_server value
  = Ok (2, [0xffffffff])
  ∧ (let t := create_cancel_tx prev_txid prev_vout [p1; p2; p3; p4] value in
     nVersion t = 2 ∧ sequences t = [0xfffffffe])
  ∧ (let t := create_emergency_vault_tx prev_txid prev_vout value emer_pubkeys in
     nVersion t = 2 ∧ sequences t = [0xfffffffe])
  ∧ (let t := create_emer_unvault_tx prev_txid prev_vout emer_pubkeys value in
     nVersion t = 2 ∧ sequences t = [0xfffffffe])
  ∧ (let t := create_spend_tx prev_txid prev_vout addresses in
     nVersion t = 2 ∧ sequences t = [6]).
Proof. by repeat split. Qed.

(** C10. Each of [form_spend_vault_txout], [form_unvault_spend] and
    [form_spend_tx] returns a transaction with the inputs, outputs,
    nVersion and nLockTime of the one passed in; the latter two return
    whenever the pubkey list unpacks to four keys and raise [TypeError]
    otherwise. *)
Theorem form_only_attaches_witness (t : tx) (pubkeys sigs : list bytes)
    (pub_server : bytes) :
  same_body t (form_spend_vault_txout t pubkeys sigs)
  ∧ match form_unvault_spend t sigs pubkeys pub_server with
    | Ok t' => same_body t t'
    | Raise e => e = TypeError ∧ length pubkeys ≠ 4%nat
    end
  ∧ match form_spend_tx t pubkeys pub_server sigs with
    | Ok t' => same_body t t'
    | Raise e => e = TypeError ∧ length pubkeys ≠ 4%nat
    end.
Proof.
  split; [apply same_body_set_wit|].
  unfold form_unvault_spend, form_spend_tx.
  destruct (unvault_script_star_cases pubkeys pub_server)
    as [(p1 & p2 & p3 & p4 & _ & ->) | [Hlen ->]]; cbn.
  - split; apply same_body_set_wit.
  - done.
Qed.

End transaction_facts.

(** [emergency_script_bytes] on the four emergency keys of the concrete
    deployment. *)
Lemma emergency_script_bytes_witness :
  Forall (λ e, length e = 33%nat) Toy.emergency_keys
  ∧ take 6 (emergency_script Toy.emergency_keys)
    = [x02; x70; x11; OP_CHECKSEQUENCEVERIFY; OP_DROP; OP_4].
Proof.
  split; [by repeat constructor|].
  unfold Toy.emergency_keys.
  rewrite (emergency_script_bytes (x02 :: repeat x0a 32) (x02 :: repeat x0b 32)
             (x03 :: repeat x0c 32) (x03 :: repeat x0d 32)
             eq_refl eq_refl eq_refl eq_refl).
  reflexivity.
Defined.

(** C5 as stated fails: the script of four 33-byte keys does not begin
    with 04 70 11. *)
Lemma emergency_script_not_04_70_11 :
  Forall (λ e, length e = 33%nat) Toy.emergency_keys
  ∧ take 3 (emergency_script Toy.emergency_keys) = [x02; x70; x11]
  ∧ take 3 (emergency_script Toy.emergency_keys) ≠ [x04; x70; x11].
Proof. split; [by repeat constructor|]. by split. Qed.

(** * Properties of the engine *)

Import Engine.

Section spend_poller_facts.

Lemma existsb_not_elem_of (known l : list string) :
  existsb (λ a, bool_decide (a ∉ known)) l = false
  ↔ Forall (λ a, a ∈ known) l.
Proof.
  induction l as [|a l IH]; cbn.
  - split; [constructor | done].
  - rewrite orb_false_iff, IH, Forall_cons, bool_decide_eq_false.
    split; intros [Ha Hl]; (split; [|done]).
    + by destruct (decide (a ∈ known)).
    + by intros Hn.
Qed.

(** What [examine_spend] decides: the proposal is accepted exactly when
    every output address is in [acked_addresses]. *)
Lemma examine_spend_decision (w : world) (tx_id : string)
    (addresses : list (string * Z)) :
  examine_spend tx_id addresses w =
    if bool_decide (Forall (λ a, a ∈ acked_addresses (self w)) addresses.*1)
    then (Ok (),
          {| self := set_acked_spends (self w) (acked_spends (self w) ++ [tx_id]);
             trace := trace w ++ [AcceptSpend tx_id addresses] |})
    else (Ok (),
          {| self := self w; trace := trace w ++ [RefuseSpend tx_id addresses] |}).
Proof.
  destruct w as [s tr]. unfold examine_spend, mbind, M_bind, get_self. cbn.
  destruct (existsb (λ a, bool_decide (a ∉ vault_addresses s ++ acked_addresses s))
              (addresses.*1)) eqn:Hvalid.
  - rewrite bool_decide_eq_false_2; [done|].
    intros Hack. apply not_false_iff_true in Hvalid. apply Hvalid.
    apply existsb_not_elem_of. eapply Forall_impl; [exact Hack|].
    intros a Ha. apply elem_of_app. by right.
  - destruct (existsb (λ a, bool_decide (a ∉ acked_addresses s)) (addresses.*1))
      eqn:Hacked.
    + rewrite bool_decide_eq_false_2; [done|].
      intros Hack. apply existsb_not_elem_of in Hack. congruence.
    + apply existsb_not_elem_of in Hacked. by rewrite bool_decide_eq_true_2.
Qed.

(** C2 (the code at the failing input). [examine_spend] accepts a
    proposal exactly when every output address is in [acked_addresses];
    so the proposal paying the acknowledged address and a watched vault
    address as change, all of whose outputs are known and one of which is
    acknowledged, is refused. *)
Theorem spend_with_change_is_refused :
  (∀ (w : world) (tx_id : string) (addresses : list (string * Z)),
     fst (examine_spend tx_id addresses w) = Ok ()
     ∧ (AcceptSpend tx_id addresses ∈ trace (snd (examine_spend tx_id addresses w))
        ↔ AcceptSpend tx_id addresses ∈ trace w
          ∨ Forall (λ a, a ∈ acked_addresses (self w)) (addresses.*1)))
  ∧ Forall (λ a, a ∈ vault_addresses (Toy.engine 0)
                     ++ acked_addresses (Toy.engine 0))
           (Toy.spend_with_change.*1)
  ∧ Exists (λ a, a ∈ acked_addresses (Toy.engine 0)) (Toy.spend_with_change.*1)
  ∧ examine_spend "cafe" Toy.spend_with_change (Toy.start_world 0)
    = (Ok (), {| self := Toy.engine 0;
                 trace := [RefuseSpend "cafe" Toy.spend_with_change] |}).
Proof.
  split; [|split; [|split]].
  - intros w tx_id addresses. rewrite examine_spend_decision.
    case_bool_decide as Hack; cbn; (split; [done|]);
      rewrite elem_of_app, list_elem_of_singleton.
    + split; [by right | by right].
    + split; [intros [Hin|Heq]; [by left | done] | intros [Hin|Hall]; [by left | done]].
  - apply (bool_decide_unpack _). by vm_compute.
  - apply (bool_decide_unpack _). by vm_compute.
  - rewrite examine_spend_decision.
    rewrite bool_decide_eq_false_2; [done|].
    intros Hack. apply (bool_decide_pack _) in Hack. by vm_compute in Hack.
Qed.

End spend_poller_facts.

Section ingest_facts.
Context `{Crypto} `{Services}.

Lemma find_seqZ_Some (f : Z → bool) (k : nat) (m i : Z) :
  List.find f (seqZ m (Z.of_nat k)) = Some i
  ↔ m ≤ i < m + Z.of_nat k ∧ f i = true ∧ ∀ j, m ≤ j < i → f j = false.
Proof.
  revert m. induction k as [|k IH]; intros m.
  - rewrite seqZ_nil by lia. cbn. split; [done | lia].
  - rewrite seqZ_cons by lia. cbn [List.find].
    replace (Z.pred (Z.of_nat (S k))) with (Z.of_nat k) by lia.
    destruct (f m) eqn:Hm.
    + split.
      * intros [= <-]. split; [lia|]. split; [done|]. intros; lia.
      * intros (Hr & Hi & Hj). f_equal.
        destruct (decide (i = m)) as [->|Hne]; [done|].
        rewrite Hj in Hm by lia. done.
    + rewrite IH. split.
      * intros (Hr & Hi & Hj). split; [lia|]. split; [done|].
        intros j Hjr. destruct (decide (j = m)) as [->|Hne]; [done|].
        apply Hj. lia.
      * intros (Hr & Hi & Hj). assert (i ≠ m) by congruence.
        split; [lia|]. split; [done|]. intros; apply Hj; lia.
Qed.

Lemma find_seqZ_None (f : Z → bool) (m n : Z) :
  List.find f (seqZ m n) = None ↔ ∀ j, m ≤ j < m + n → f j = false.
Proof.
  split.
  - intros Hnone j Hj. eapply find_none; [exact Hnone|].
    apply list_elem_of_In, elem_of_seqZ. lia.
  - intros Hall. destruct (List.find f (seqZ m n)) as [i|] eqn:Hfind; [|done].
    apply find_some in Hfind as [Hin Hf].
    apply list_elem_of_In, elem_of_seqZ in Hin. rewrite Hall in Hf by lia. done.
Qed.

(** [guess_index] returns the least index of [0, max_index) whose vault
    address is the one looked for. *)
Lemma guess_index_Some (s : Vault) (a : string) (i : Z) :
  guess_index s a = Some i
  ↔ 0 ≤ i < max_index s ∧ get_vault_address i = a
    ∧ ∀ j, 0 ≤ j < i → get_vault_address j ≠ a.
Proof.
  unfold guess_index.
  destruct (decide (max_index s ≤ 0)) as [Hneg|Hpos].
  - rewrite seqZ_nil by done. cbn. split; [done | lia].
  - rewrite <- (Z2Nat.id (max_index s)) at 1 by lia.
    rewrite find_seqZ_Some, Z2Nat.id by lia. rewrite bool_decide_eq_true.
    split; intros (Hr & Hi & Hj); (split; [lia|]); (split; [done|]).
    + intros j Hjr. specialize (Hj j Hjr).
      apply bool_decide_eq_false in Hj. congruence.
    + intros j Hjr. apply bool_decide_eq_false. specialize (Hj j ltac:(lia)).
      congruence.
Qed.

Lemma guess_index_None (s : Vault) (a : string) :
  guess_index s a = None ↔ ∀ j, 0 ≤ j < max_index s → get_vault_address j ≠ a.
Proof.
  unfold guess_index. rewrite find_seqZ_None. split; intros Hall j Hj.
  - specialize (Hall j ltac:(lia)). apply bool_decide_eq_false in Hall. congruence.
  - apply bool_decide_eq_false. specialize (Hall j ltac:(lia)). congruence.
Qed.

(** C8 (amended). The index of a new vault UTXO is the least index of
    [0, max_index) -- not of [current_index, max_index) -- whose vault
    address is the UTXO's; when no index of [0, max_index) matches,
    [add_new_vault] raises and leaves the engine, its vault list included,
    and the call trace as they were. *)
Theorem ingest_matches_from_zero (s : Vault) (tr : list event) (output : utxo) :
  (∀ i, guess_index s (utxo_address output) = Some i
        ↔ 0 ≤ i < max_index s ∧ get_vault_address i = utxo_address output
          ∧ ∀ j, 0 ≤ j < i → get_vault_address j ≠ utxo_address output)
  ∧ ((∀ j, 0 ≤ j < max_index s → get_vault_address j ≠ utxo_address output) →
     add_new_vault output {| self := s; trace := tr |}
     = (Raise no_such_vault, {| self := s; trace := tr |})).
Proof.
  split; [intros i; apply guess_index_Some|].
  intros Hnone%guess_index_None.
  unfold add_new_vault, mbind, M_bind, get_self. cbn.
  by rewrite Hnone.
Qed.

End ingest_facts.

(** [ingest_matches_from_zero] on a UTXO at an address that none of the
    500 indices of the concrete deployment produces. *)
Lemma ingest_matches_from_zero_witness :
  @add_new_vault Toy.crypto Toy.services Toy.stray (Toy.start_world 0)
  = (Raise no_such_vault, Toy.start_world 0).
Proof.
  apply (proj2 (@ingest_matches_from_zero Toy.crypto Toy.services
                  (Toy.engine 0) [] Toy.stray)).
  intros j Hj. revert j Hj.
  apply (Forall_seqZ (λ j, @get_vault_address Toy.crypto Toy.services j
                           ≠ utxo_address Toy.stray) 0 500).
  apply (bool_decide_unpack _). by vm_compute.
Defined.

(** C8 as stated fails.  After the funds poller has ingested a first
    deposit, the window is [1, 501); a second deposit to the address of
    index 0, which is still watched, is reported as new, and
    [add_new_vault] ingests it under index 0 although no index of
    [1, 501) produces its address. *)
Lemma ingest_below_current_index :
  current_index (self Toy.ingested) = 1 ∧ max_index (self Toy.ingested) = 501
  ∧ utxo_address Toy.reuse ∈ vault_addresses (self Toy.ingested)
  ∧ new_vaults (self Toy.ingested) [Toy.deposit 0; Toy.reuse] = [Toy.reuse]
  ∧ Forall (λ i, @get_vault_address Toy.crypto Toy.services i
                 ≠ utxo_address Toy.reuse) (seqZ 1 500)
  ∧ @guess_index Toy.crypto Toy.services (self Toy.ingested)
      (utxo_address Toy.reuse) = Some 0
  ∧ fst (@add_new_vault Toy.crypto Toy.services Toy.reuse Toy.ingested) = Ok ()
  ∧ txid <$> vaults (self (snd (@add_new_vault Toy.crypto Toy.services
                                  Toy.reuse Toy.ingested)))
    = ["f00d"; "cafe"]%string.
Proof.
  split; [by vm_compute|]. split; [by vm_compute|]. split.
  { apply (bool_decide_unpack _). by vm_compute. }
  split; [by vm_compute|]. split.
  { apply (bool_decide_unpack _). by vm_compute. }
  split; [by vm_compute|]. split; by vm_compute.
Qed.

Section fetcher_facts.
Context `{Services}.
Variable own : nat.

Lemma elem_of_insert_inv {A} (l : list A) (i : nat) (x y : A) :
  y ∈ <[i:=x]> l → y = x ∨ y ∈ l.
Proof.
  intros [j Hj]%list_elem_of_lookup.
  apply list_lookup_insert_Some in Hj as [(_ & -> & _) | [_ Hj]]; [by left|].
  right. by eapply list_elem_of_lookup_2.
Qed.

Lemma anyonecanpay_flag (flag : byte) :
  (Z_of_byte flag =? ALL_ANYONECANPAY) = true → flag = x81.
Proof. destruct flag; vm_compute; congruence. Qed.

(** What a successful fetch leaves in the table it fills. *)
Lemma fetch_asserting_Ok (sigs sigs' : list (option bytes)) (i : nat)
    (resp : option bytes) :
  fetch_asserting sigs i resp = Ok sigs' →
  sigs' = sigs
  ∨ ∃ sig, resp = Some sig ∧ sighash_flag sig = Some x81
           ∧ sigs' = <[(i - 1)%nat := Some sig]> sigs.
Proof.
  unfold fetch_asserting, sighash_flag. intros Hfetch.
  destruct resp as [sig|]; [|left; congruence].
  destruct (last sig) as [flag|] eqn:Hlast; [|done].
  destruct (Z_of_byte flag =? ALL_ANYONECANPAY) eqn:Hflag; [|done].
  apply anyonecanpay_flag in Hflag as ->. right. exists sig. by simplify_eq.
Qed.

Lemma sigs_of_store_same (k : table) (v : vault) (l : list (option bytes)) :
  sigs_of k (store_sigs k v l) = l.
Proof. by destruct k. Qed.

Lemma sigs_of_store_other (k k' : table) (v : vault) (l : list (option bytes)) :
  k ≠ k' → sigs_of k' (store_sigs k v l) = sigs_of k' v.
Proof. by destruct k, k'. Qed.

Lemma template_of_store (k k' : table) (v : vault) (l : list (option bytes)) :
  template_of k' (store_sigs k v l) = template_of k' v.
Proof. by destruct k, k'. Qed.

Lemma unvault_secure_store (k : table) (v : vault) (l : list (option bytes)) :
  unvault_secure (store_sigs k v l) = unvault_secure v.
Proof. by destruct k. Qed.

Lemma step_effect_flags (v : vault) (tr : list event) (a b c : bool) :
  (unvault_secure v = true → c = true) →
  step_effect v tr (set_flags v a b c) tr.
Proof.
  intros Hc. unfold step_effect. split_and!.
  - by intros [].
  - intros [] sig _ Hin; by left.
  - by intros [].
  - done.
  - by left.
Qed.

Lemma step_effect_refl (v : vault) (tr : list event) : step_effect v tr v tr.
Proof.
  unfold step_effect. split_and!; try done.
  - intros k sig _ Hin. by left.
  - by left.
Qed.

Lemma step_effect_fetch (k : table) (v : vault) (tr : list event) (i : nat)
    (resp : option bytes) (sigs' : list (option bytes)) (id : string) :
  fetch k (sigs_of k v) i resp = Ok sigs' →
  step_effect v tr (store_sigs k v sigs') (tr ++ [GetSignature id i]).
Proof.
  intros Hfetch. split; [intros k'; apply template_of_store|].
  assert (∀ k', k' ≠ Unvault → ∀ x, x ∈ sigs_of k' (store_sigs k v sigs') →
            x ∈ sigs_of k' v
            ∨ ∃ sig, x = Some sig ∧ sighash_flag sig = Some x81) as Hin.
  { intros k' Hk' x Hx. destruct (decide (k = k')) as [->|Hne].
    - rewrite sigs_of_store_same in Hx.
      assert (fetch k' = fetch_asserting) as Hf by by destruct k'.
      rewrite Hf in Hfetch.
      apply fetch_asserting_Ok in Hfetch as [->|(sig & _ & Hflag & ->)];
        [by left|].
      apply elem_of_insert_inv in Hx as [->|Hx]; [right; eauto | by left].
    - rewrite sigs_of_store_other in Hx by done. by left. }
  split; [|split; [|split]].
  - intros k' sig Hk' Hx. destruct (Hin k' Hk' _ Hx) as [?|(? & [= <-] & ?)]; eauto.
  - intros k' Hk' Hc Hx. by destruct (Hin k' Hk' _ Hx) as [?|(? & ? & ?)].
  - by rewrite unvault_secure_store.
  - right; left; eauto.
Qed.

Lemma not_none_in_app (l1 l2 : list (option bytes)) :
  none_in (l1 ++ l2) = false → complete l1 ∧ complete l2.
Proof.
  unfold none_in, complete. intros Hn%bool_decide_eq_false.
  rewrite elem_of_app in Hn. tauto.
Qed.

Lemma thread_step_effect (inp : input) (th th' : thread) (v v' : vault)
    (tr tr' : list event) :
  thread_step own inp th v tr = Some (th', v', tr') → step_effect v tr v' tr'.
Proof.
  unfold thread_step. intros Hstep.
  destruct th as [k [| | |i]| | | |].
  - (* AtEntry *)
    destruct inp; try done.
    destruct (template_of k v); simplify_eq; apply step_effect_refl.
  - (* AtWhile *)
    destruct inp; try done.
    destruct (none_in (sigs_of k v)); [simplify_eq; apply step_effect_refl|].
    destruct k; cbn in Hstep; simplify_eq;
      [apply step_effect_refl.. | by apply step_effect_flags].
  - (* AtWait *)
    destruct inp as [|is_set| |]; try done.
    destruct is_set; simplify_eq; apply step_effect_refl.
  - (* AtSlot *)
    destruct (sigs_of k v !! (i - 1)%nat) as [[sig|]|] eqn:Hslot;
      destruct inp as [| |resp|]; try done;
      try (simplify_eq; apply step_effect_refl).
    destruct (template_of k v) as [t|]; [|done].
    destruct (fetch k (sigs_of k v) i resp) as [sigs'|e] eqn:Hfetch;
      simplify_eq.
    + by eapply step_effect_fetch.
    + match goal with
      | |- step_effect ?v0 ?tr0 _ _ =>
          destruct (step_effect_refl v0 tr0) as (? & ? & ? & ? & _)
      end.
      unfold step_effect. split_and!; try done. right; left; eauto.
  - (* AtMempoolCheck *)
    destruct inp as [| | |accepted]; try done.
    destruct accepted; simplify_eq;
      [by apply step_effect_flags | apply step_effect_refl].
  - (* AtGate *)
    destruct inp; try done.
    destruct (none_in (unvault_emer_sigs v ++ cancel_sigs v)) eqn:Hgate;
      [simplify_eq; apply step_effect_refl|].
    apply not_none_in_app in Hgate as [Hue Hc].
    destruct (unvault_tx v) as [t|] eqn:Ht;
      [|simplify_eq; by apply step_effect_flags].
    destruct (unvault_sigs v !! own) as [sig|];
      simplify_eq; [|by apply step_effect_flags].
    destruct (step_effect_flags v tr (emergency_signed v) (unvault_signed v)
                true (λ _, eq_refl)) as (? & ? & ? & ? & _).
    unfold step_effect. split_and!; try done.
    right; right. exists t, sig. by split_and!.
  - done.
  - done.
Qed.

Lemma exec_effect (a : action) (s s' : system) :
  exec own a s = Some s' →
  step_effect (sys_vault s) (sys_trace s) (sys_vault s') (sys_trace s').
Proof.
  destruct a as [n inp|]; cbn.
  - destruct (sys_threads s !! n) as [th|]; [cbn|done].
    destruct (thread_step own inp th (sys_vault s) (sys_trace s))
      as [[[th' v'] tr']|] eqn:Hstep; [cbn|done].
    intros [= <-]. by eapply thread_step_effect.
  - intros [= <-]. apply step_effect_refl.
Qed.

Lemma run_rtc (schedule : list action) (s s' : system) :
  run own schedule s = Some s' → rtc (step own) s s'.
Proof.
  revert s. induction schedule as [|a schedule IH]; intros s; cbn.
  - by intros [= <-].
  - destruct (exec own a s) as [s1|] eqn:Hexec; [cbn|done].
    intros Hrun. eapply rtc_l; [by exists a | by apply IH].
Qed.

Lemma unvault_published_step (s s' : system) :
  step_effect (sys_vault s) (sys_trace s) (sys_vault s') (sys_trace s') →
  unvault_published s' →
  unvault_published s
  ∨ (complete (cancel_sigs (sys_vault s'))
     ∧ complete (unvault_emer_sigs (sys_vault s'))
     ∧ unvault_secure (sys_vault s') = true).
Proof.
  intros (Htpl & _ & _ & _ & Htr) (t & sig & Ht & Hin).
  specialize (Htpl Unvault). cbn in Htpl. rewrite Htpl in Ht.
  destruct Htr as [Heq | [(id & n & Heq) | (t' & sig' & _ & Heq & Hsec)]];
    rewrite Heq in Hin.
  - left. by exists t, sig.
  - apply elem_of_app in Hin as [Hin | Hin%list_elem_of_singleton]; [|done].
    left. by exists t, sig.
  - apply elem_of_app in Hin as [Hin | _]; [|by right].
    left. by exists t, sig.
Qed.

(** C1 (amended). From a state in which the local unvault signature has
    not been handed to the sig-server, however the fetcher threads of the
    vault interleave and whatever the sig-server answers: once the unvault
    signature has been published, the cancel and the unvault-emergency
    tables hold all four signatures and the vault is marked
    [unvault_secure].  The emergency table is not part of the gate. *)
Theorem unvault_published_after_revocations (s0 s : system) :
  ¬ unvault_published s0 →
  rtc (step own) s0 s →
  unvault_published s →
  complete (cancel_sigs (sys_vault s))
  ∧ complete (unvault_emer_sigs (sys_vault s))
  ∧ unvault_secure (sys_vault s) = true.
Proof.
  intros Hfresh Hrun. revert s Hrun.
  apply (rtc_ind_r (λ s, unvault_published s →
                         complete (cancel_sigs (sys_vault s))
                         ∧ complete (unvault_emer_sigs (sys_vault s))
                         ∧ unvault_secure (sys_vault s) = true)).
  - done.
  - intros s1 s2 Hrun [a Hexec] IH Hpub. apply exec_effect in Hexec as Heff.
    destruct (unvault_published_step _ _ Heff Hpub) as [Hbefore|Hnow]; [|done].
    destruct (IH Hbefore) as (Hc & Hue & Hsec).
    destruct Heff as (_ & _ & Hcomplete & Hflag & _).
    split_and!.
    + by apply (Hcomplete Cancel).
    + by apply (Hcomplete UnvaultEmer).
    + by apply Hflag.
Qed.

(** C9 (amended). In the emergency, cancel and unvault-emergency tables,
    however the fetchers run and whatever the sig-server answers, every
    signature found in the table was there at the start or ends in the
    flag byte SIGHASH_ALL|SIGHASH_ANYONECANPAY: a fetched signature with
    another final byte is never stored.  The unvault table is excluded:
    its fetcher stores the answer unchecked. *)
Theorem mismatched_flag_never_stored (s0 s : system) (k : table) (sig : bytes) :
  k ≠ Unvault →
  rtc (step own) s0 s →
  Some sig ∈ sigs_of k (sys_vault s) →
  Some sig ∈ sigs_of k (sys_vault s0) ∨ sighash_flag sig = Some x81.
Proof.
  intros Hk Hrun. revert s Hrun.
  apply (rtc_ind_r (λ s, Some sig ∈ sigs_of k (sys_vault s) →
                         Some sig ∈ sigs_of k (sys_vault s0)
                         ∨ sighash_flag sig = Some x81)).
  - by left.
  - intros s1 s2 Hrun [a Hexec] IH Hin.
    apply exec_effect in Hexec as (_ & Hstored & _).
    destruct (Hstored k sig Hk Hin) as [Hbefore|Hflag]; [by apply IH | by right].
Qed.

End fetcher_facts.

Section feerate_key_facts.
Context `{Crypto} `{Services}.

Lemma feerate_keys_snoc (tr : list event) (e : event) :
  feerate_keys (tr ++ [e])
  = feerate_keys tr ++ match e with
                       | SigserverGetFeerate kind _ => [kind]
                       | BitcoindGetFeerate kind => [kind]
                       | _ => []
                       end.
Proof. unfold feerate_keys. rewrite omap_app. f_equal. by destruct e. Qed.

(** Case analysis on the innermost test that [x] depends on. *)
Ltac innermost_test x :=
  lazymatch x with
  | context [match ?y with _ => _ end] => innermost_test y
  | _ => destruct x eqn:?
  end.

(** Runs a method symbolically: unfolds the monad and splits on every
    test the method makes. *)
Ltac run_method :=
  unfold mbind, M_bind, mret, M_ret, lift, deref, list_get, list_assign,
         the_key, assert, raise, emit, get_self, put_self; cbn;
  repeat (match goal with
          | |- context [match ?x with _ => _ end] => innermost_test x
          end; cbn).

Ltac asks_nothing := exists []; rewrite app_nil_r; split; [done | by left].
Ltac asks_under key :=
  exists [key]; rewrite ?feerate_keys_snoc; split; [done | by right].

(** The kind under which each template is built. *)
Lemma templates_built_under (v : vault) :
  asks_only "emergency" (create_sign_emergency v)
  ∧ asks_only "cancel" (create_sign_unvault v)
  ∧ asks_only "cancel" (create_sign_cancel v)
  ∧ asks_only "emergency" (create_sign_unvault_emer v).
Proof.
  split_and!; intros [s tr].
  - unfold create_sign_emergency. run_method;
      first [asks_nothing | asks_under "emergency"%string].
  - unfold create_sign_unvault. run_method;
      first [asks_nothing | asks_under "cancel"%string].
  - unfold create_sign_cancel. run_method;
      first [asks_nothing | asks_under "cancel"%string].
  - unfold create_sign_unvault_emer. run_method;
      first [asks_nothing | asks_under "emergency"%string].
Qed.

(** The kind under which the current target is read before broadcast:
    the unvault emergency is compared under "cancel". *)
Lemma targets_read_under (v : vault) :
  asks_only "emergency" (get_signed_emergency_tx v)
  ∧ asks_only "cancel" (get_signed_cancel_tx v)
  ∧ asks_only "cancel" (get_signed_unvault_emergency_tx v).
Proof.
  split_and!; intros [s tr].
  - unfold get_signed_emergency_tx. run_method;
      first [asks_nothing | asks_under "emergency"%string].
  - unfold get_signed_cancel_tx. run_method;
      first [asks_nothing | asks_under "cancel"%string].
  - unfold get_signed_unvault_emergency_tx. run_method;
      first [asks_nothing | asks_under "cancel"%string].
Qed.

End feerate_key_facts.

(** * The concrete deployment *)

Section deployment_facts.

#[local] Existing Instance Toy.crypto.
#[local] Existing Instance Toy.services.

Lemma engine_watches :
  self (snd (update_watched_addresses
               {| self := Toy.blank 0; trace := [] |})) = Toy.engine 0.
Proof. by vm_compute. Qed.

Lemma omap_sent_ids_elem (tr : list event) (id : string) :
  id ∈ sent_ids tr ↔ ∃ sig, SendSignature id sig ∈ tr.
Proof.
  unfold sent_ids. rewrite list_elem_of_omap. split.
  - intros (e & Hin & He). destruct e; try done. simplify_eq. eauto.
  - intros (sig & Hin). by exists (SendSignature id sig).
Qed.

Lemma unvault_published_reflect (s : system) :
  unvault_published s ↔ unvault_publishedb s = true.
Proof.
  unfold unvault_published, unvault_publishedb.
  destruct (unvault_tx (sys_vault s)) as [t|].
  - rewrite bool_decide_eq_true, omap_sent_ids_elem. split.
    + intros (t' & sig & [= <-] & Hin). eauto.
    + intros (sig & Hin). eauto.
  - split; [by intros (? & ? & ? & _) | done].
Qed.

Lemma system0_fresh : ¬ unvault_published Toy.system0.
Proof. rewrite unvault_published_reflect. by vm_compute. Qed.

Lemma gate_passed_reached : rtc (step 0) Toy.system0 Toy.gate_passed.
Proof. apply (run_rtc 0 Toy.revocations_schedule). by vm_compute. Qed.

Lemma gate_passed_published : unvault_published Toy.gate_passed.
Proof. rewrite unvault_published_reflect. by vm_compute. Qed.

Lemma unvault_collected_reached :
  rtc (step 0) Toy.gate_passed Toy.unvault_collected.
Proof. apply (run_rtc 0 (Toy.poll_round 1 x01)). by vm_compute. Qed.

(** [unvault_published_after_revocations] on the run in which thread 1
    collects the peers' revocation signatures and passes the gate. *)
Lemma unvault_published_after_revocations_witness :
  ¬ unvault_published Toy.system0
  ∧ rtc (step 0) Toy.system0 Toy.gate_passed
  ∧ unvault_published Toy.gate_passed
  ∧ complete (cancel_sigs (sys_vault Toy.gate_passed))
  ∧ complete (unvault_emer_sigs (sys_vault Toy.gate_passed))
  ∧ unvault_secure (sys_vault Toy.gate_passed) = true.
Proof.
  split; [exact system0_fresh|]. split; [exact gate_passed_reached|].
  split; [exact gate_passed_published|].
  exact (unvault_published_after_revocations 0 Toy.system0 Toy.gate_passed
           system0_fresh gate_passed_reached gate_passed_published).
Defined.

(** C1 as stated fails: from the freshly ingested vault, with thread 1
    alone running, the unvault signature is published while three slots of
    the emergency table are still empty. *)
Lemma unvault_published_before_emergency :
  ¬ unvault_published Toy.system0
  ∧ rtc (step 0) Toy.system0 Toy.gate_passed
  ∧ unvault_published Toy.gate_passed
  ∧ emergency_sigs (sys_vault Toy.gate_passed)
    = [Some [x00; x00; x01; x01]; None; None; None]
  ∧ ¬ complete (emergency_sigs (sys_vault Toy.gate_passed)).
Proof.
  split; [exact system0_fresh|]. split; [exact gate_passed_reached|].
  split; [exact gate_passed_published|]. split; [by vm_compute|].
  intros Hcomplete. apply Hcomplete. apply (bool_decide_unpack _). by vm_compute.
Qed.

(** [mismatched_flag_never_stored] on the same run, for a peer's cancel
    signature. *)
Lemma mismatched_flag_never_stored_witness :
  Cancel ≠ Unvault
  ∧ rtc (step 0) Toy.system0 Toy.gate_passed
  ∧ Some (Toy.peer_sig 2 x81) ∈ sigs_of Cancel (sys_vault Toy.gate_passed)
  ∧ (Some (Toy.peer_sig 2 x81) ∈ sigs_of Cancel (sys_vault Toy.system0)
     ∨ sighash_flag (Toy.peer_sig 2 x81) = Some x81).
Proof.
  assert (Some (Toy.peer_sig 2 x81)
          ∈ sigs_of Cancel (sys_vault Toy.gate_passed)) as Hin.
  { apply (bool_decide_unpack _). by vm_compute. }
  split; [done|]. split; [exact gate_passed_reached|]. split; [exact Hin|].
  exact (mismatched_flag_never_stored 0 Toy.system0 Toy.gate_passed Cancel
           (Toy.peer_sig 2 x81) ltac:(done) gate_passed_reached Hin).
Defined.

(** C9 as stated fails for the unvault table: a peer's unvault signature,
    which ends in SIGHASH_ALL (0x01) and not in 0x81, is stored by
    [update_unvault_transaction] without any check. *)
Lemma unvault_fetcher_stores_unchecked :
  sighash_flag (Toy.peer_sig 2 x01) = Some x01
  ∧ rtc (step 0) Toy.gate_passed Toy.unvault_collected
  ∧ (Some (Toy.peer_sig 2 x01) ∉ unvault_sigs (sys_vault Toy.gate_passed))
  ∧ Some (Toy.peer_sig 2 x01) ∈ unvault_sigs (sys_vault Toy.unvault_collected)
  ∧ fetch Unvault [None; None] 2 (Some (Toy.peer_sig 2 x01))
    = Ok [None; Some (Toy.peer_sig 2 x01)]
  ∧ fetch Cancel [None; None] 2 (Some (Toy.peer_sig 2 x01))
    = Raise AssertionError.
Proof.
  split; [done|]. split; [exact unvault_collected_reached|].
  split; [|split; [|by split]].
  - apply (bool_decide_unpack _). by vm_compute.
  - apply (bool_decide_unpack _). by vm_compute.
Qed.

(** C7 (the code at the failing input). Whatever the collaborators and
    the vault, [get_signed_unvault_emergency_tx] reads the current target
    under no kind but "cancel".  In the concrete deployment: when the
    templates of the ingested vault were built, the target was asked under
    "emergency" for the vault emergency, "cancel" for the unvault and the
    cancel, and "emergency" for the unvault emergency; but before
    broadcast, with the unvault-emergency table full, the target is read
    under "cancel". *)
Theorem unvault_emergency_compared_under_cancel :
  (∀ (C : Crypto) (S : Services) (v : vault),
     asks_only "cancel" (@get_signed_unvault_emergency_tx C S v))
  ∧ feerate_keys (trace Toy.ingested)
    = ["emergency"; "cancel"; "cancel"; "emergency"]%string
  ∧ none_in (unvault_emer_sigs (sys_vault Toy.gate_passed)) = false
  ∧ feerate_keys
      (trace (snd (get_signed_unvault_emergency_tx (sys_vault Toy.gate_passed)
                     (Toy.start_world 0))))
    = ["cancel"%string].
Proof.
  split; [intros C S v; apply (@targets_read_under C S v)|].
  split; [by vm_compute|]. split; by vm_compute.
Qed.

End deployment_facts.

(** * Further properties of the transaction module *)

Section script_layout_facts.
Context `{Crypto}.

Lemma push_keys_33 (keys : list bytes) :
  Forall (λ k, length k = 33%nat) keys →
  concat (coerce <$> (Data <$> keys)) = concat ((λ k, x21 :: k) <$> keys).
Proof.
  induction 1 as [|k keys Hk _ IH]; [done|].
  cbn. by rewrite (push_33 k Hk), IH.
Qed.

Lemma length_concat_keys_33 (keys : list bytes) :
  Forall (λ k, length k = 33%nat) keys →
  length (concat ((λ k, x21 :: k) <$> keys)) = (34 * length keys)%nat.
Proof.
  induction 1 as [|k keys Hk _ IH]; [done|].
  cbn. rewrite length_app, IH, Hk. lia.
Qed.

Lemma push_32 (h : bytes) :
  length h = 32%nat → encode_op_pushdata h = x20 :: h.
Proof. intros Hlen. unfold encode_op_pushdata. by rewrite Hlen. Qed.

(** X1. For compressed (33-byte) public keys, however many, the vault
    script is the byte OP_4 (0x54), then each key behind its one-byte
    push prefix 0x21 in list order, then OP_4 OP_CHECKMULTISIG
    (0x54 0xae): 3 + 34 n bytes for n keys.  The leading and the
    trailing count are both the constant 4, whatever the number of
    keys handed in. *)
Theorem vault_script_layout (pubkeys : list bytes) :
  Forall (λ k, length k = 33%nat) pubkeys →
  vault_script pubkeys
  = [OP_4] ++ concat ((λ k, x21 :: k) <$> pubkeys) ++ [OP_4; OP_CHECKMULTISIG]
  ∧ length (vault_script pubkeys) = (3 + 34 * length pubkeys)%nat.
Proof.
  intros Hkeys.
  assert (vault_script pubkeys
          = [OP_4] ++ concat ((λ k, x21 :: k) <$> pubkeys)
            ++ [OP_4; OP_CHECKMULTISIG]) as Heq.
  { unfold vault_script, CScript.
    rewrite !fmap_app, !concat_app, (push_keys_33 _ Hkeys). reflexivity. }
  split; [done|].
  rewrite Heq. cbn. rewrite length_app, (length_concat_keys_33 _ Hkeys). cbn. lia.
Qed.

(** X2. For five compressed (33-byte) public keys the unvault script is
    the 190-byte string written out below: each key behind the push
    prefix 0x21, the two traders' keys first, the two other
    stakeholders' keys next, the cosigning server's key inside the
    ELSE branch, which ends in OP_6 OP_CHECKSEQUENCEVERIFY. *)
Theorem unvault_script_layout (pub_trader1 pub_trader2 pub1 pub2 pub_server : bytes) :
  length pub_trader1 = 33%nat → length pub_trader2 = 33%nat →
  length pub1 = 33%nat → length pub2 = 33%nat → length pub_server = 33%nat →
  unvault_script pub_trader1 pub_trader2 pub1 pub2 pub_server
  = (x21 :: pub_trader1) ++ [OP_CHECKSIG; OP_SWAP]
    ++ (x21 :: pub_trader2) ++ [OP_CHECKSIG; OP_ADD; OP_SWAP]
    ++ (x21 :: pub1) ++ [OP_CHECKSIG; OP_ADD; OP_DUP; OP_3; OP_EQUAL;
                         OP_IF; OP_DROP]
    ++ (x21 :: pub2) ++ [OP_CHECKSIG; OP_ELSE; OP_2; OP_EQUALVERIFY]
    ++ (x21 :: pub_server) ++ [OP_CHECKSIGVERIFY; OP_6;
                               OP_CHECKSEQUENCEVERIFY; OP_ENDIF]
  ∧ length (unvault_script pub_trader1 pub_trader2 pub1 pub2 pub_server)
    = 190%nat.
Proof.
  intros H1 H2 H3 H4 H5.
  assert (∀ k, length k = 33%nat → coerce (Data k) = x21 :: k) as Hpush
    by (intros k Hk; apply (push_33 k Hk)).
  unfold unvault_script, CScript. cbn [fmap list_fmap concat].
  rewrite !Hpush by done. split.
  - reflexivity.
  - cbn. repeat (rewrite length_app; cbn). lia.
Qed.

(** X3. When the digest has SHA-256's length of 32 bytes, the three
    output builders produce a version-0 witness program: the
    scriptPubKey is the 34 bytes 0x00 0x20 followed by the digest of the
    vault script, of the emergency script, of the unvault script; the
    value is the one passed in.  It is the script alone that fixes the
    scriptPubKey, not the value. *)
Theorem p2wsh_outputs (pubkeys : list bytes) (p1 p2 p3 p4 pub_server : bytes)
    (value : Z) :
  (∀ script, length (sha256 script) = 32%nat) →
  vault_txout pubkeys value
  = {| nValue := value;
       scriptPubKey := [OP_0; x20] ++ sha256 (vault_script pubkeys) |}
  ∧ emergency_txout pubkeys value
    = {| nValue := value;
         scriptPubKey := [OP_0; x20] ++ sha256 (emergency_script pubkeys) |}
  ∧ unvault_txout [p1; p2; p3; p4] pub_server value
    = Ok {| nValue := value;
            scriptPubKey := [OP_0; x20]
                            ++ sha256 (unvault_script p1 p2 p3 p4 pub_server) |}
  ∧ length (scriptPubKey (vault_txout pubkeys value)) = 34%nat.
Proof.
  intros Hdigest.
  assert (∀ script, p2wsh script = [OP_0; x20] ++ sha256 script) as Hwrap.
  { intros script. unfold p2wsh, CScript. cbn.
    by rewrite (push_32 _ (Hdigest script)), app_nil_r. }
  split_and!.
  - unfold vault_txout. by rewrite Hwrap.
  - unfold emergency_txout. by rewrite Hwrap.
  - unfold unvault_txout, unvault_script_star. cbn [mbind result_bind].
    by rewrite Hwrap.
  - unfold vault_txout. cbn [scriptPubKey]. rewrite Hwrap. cbn.
    by rewrite Hdigest.
Qed.

(** X4. With [sign_all] set, the emergency, cancel and
    unvault-emergency signers end their signature in SIGHASH_ALL (0x01);
    with it cleared the cancel and unvault-emergency signers end it in
    0x81.  So the signature a stakeholder keeps for itself is never the
    byte string it shares: the two differ for the same key, transaction
    and amount. *)
Theorem private_signatures_are_sighash_all (t : tx) (privkey : bytes)
    (pubkeys : list bytes) (p1 p2 p3 p4 pub_server : bytes) (prev_value : Z) :
  sighash_flag (sign_emergency_vault_tx t privkey pubkeys prev_value true)
  = Some x01
  ∧ sighash_flag <$> sign_cancel_tx t privkey [p1; p2; p3; p4] pub_server
                       prev_value true = Ok (Some x01)
  ∧ sighash_flag <$> sign_emer_unvault_tx t privkey [p1; p2; p3; p4]
                       pub_server prev_value true = Ok (Some x01)
  ∧ sighash_flag <$> sign_cancel_tx t privkey [p1; p2; p3; p4] pub_server
                       prev_value false = Ok (Some x81)
  ∧ sighash_flag <$> sign_emer_unvault_tx t privkey [p1; p2; p3; p4]
                       pub_server prev_value false = Ok (Some x81)
  ∧ sign_emergency_vault_tx t privkey pubkeys prev_value true
    ≠ sign_emergency_vault_tx t privkey pubkeys prev_value false
  ∧ sign_cancel_tx t privkey [p1; p2; p3; p4] pub_server prev_value true
    ≠ sign_cancel_tx t privkey [p1; p2; p3; p4] pub_server prev_value false.
Proof.
  destruct flag_bytes as [Hall Hany].
  assert (∀ body body' : bytes, body ++ [x01] ≠ body' ++ [x81]) as Hne.
  { intros body body' Heq.
    apply (f_equal sighash_flag) in Heq. by rewrite !sighash_flag_snoc in Heq. }
  unfold sign_cancel_tx, sign_emer_unvault_tx, sign_unvault_revault,
    sign_emergency_vault_tx. cbn.
  change (byte_of_Z (Z.lor SIGHASH_ALL SIGHASH_ANYONECANPAY))
    with (byte_of_Z ALL_ANYONECANPAY).
  rewrite Hall, Hany, !sighash_flag_snoc.
  split_and!; try done; try apply Hne.
  intros [= Heq]. by apply Hne in Heq.
Qed.


(** X6. The spend transaction has one input, the given outpoint with an
    empty scriptSig, and one output per entry of the address dict, in
    the dict's order: the i-th output carries the i-th amount and the
    scriptPubKey of the i-th address.  Nothing is added (no change
    output, no fee output), so an empty dict gives a transaction
    without outputs, and the outputs sum to the amounts requested. *)
Theorem spend_tx_outputs (unvault_txid : bytes) (unvault_vout : Z)
    (addresses : list (string * Z)) :
  let t := create_spend_tx unvault_txid unvault_vout addresses in
  prevout <$> vin t = [{| op_hash := unvault_txid; op_n := unvault_vout |}]
  ∧ scriptSig <$> vin t = [[]]
  ∧ (∀ i a z, addresses !! i = Some (a, z) →
              vout t !! i = Some {| nValue := z;
                                    scriptPubKey := to_scriptPubKey a |})
  ∧ length (vout t) = length addresses
  ∧ foldr Z.add 0 (nValue <$> vout t) = foldr Z.add 0 addresses.*2
  ∧ (addresses = [] → vout t = []).
Proof.
  cbn. split_and!; try done.
  - intros i a z Hi. by rewrite list_lookup_fmap, Hi.
  - by rewrite length_fmap.
  - f_equal. rewrite <- list_fmap_compose. apply list_fmap_ext. by intros ? [a z].
  - by intros ->.
Qed.

End script_layout_facts.

Lemma vault_script_layout_witness :
  Forall (λ k, length k = 33%nat) Toy.emergency_keys
  ∧ length (vault_script Toy.emergency_keys) = 139%nat.
Proof.
  assert (Forall (λ k, length k = 33%nat) Toy.emergency_keys) as Hkeys
    by by repeat constructor.
  split; [exact Hkeys|].
  exact (proj2 (vault_script_layout Toy.emergency_keys Hkeys)).
Defined.

Lemma unvault_script_layout_witness :
  length (unvault_script Toy.cosigner_key Toy.cosigner_key Toy.cosigner_key
            Toy.cosigner_key Toy.cosigner_key) = 190%nat.
Proof.
  exact (proj2 (unvault_script_layout Toy.cosigner_key Toy.cosigner_key
                  Toy.cosigner_key Toy.cosigner_key Toy.cosigner_key
                  eq_refl eq_refl eq_refl eq_refl eq_refl)).
Defined.

Lemma p2wsh_outputs_witness :
  (∀ script, length (@sha256 Toy.crypto32 script) = 32%nat)
  ∧ length (scriptPubKey (@vault_txout Toy.crypto32 Toy.emergency_keys 1000))
    = 34%nat.
Proof.
  assert (∀ script, length (@sha256 Toy.crypto32 script) = 32%nat) as Hdigest.
  { intros script. unfold sha256, Toy.crypto32.
    rewrite length_take, length_app, repeat_length. lia. }
  split; [exact Hdigest|].
  exact (proj2 (proj2 (proj2
    (@p2wsh_outputs Toy.crypto32 Toy.emergency_keys [] [] [] [] [] 1000
       Hdigest)))).
Defined.

(** * Ingesting a deposit *)

Section ingest_effects.
Context `{Crypto} `{Services}.

Lemma list_assign_Ok {A} (l : list A) (i : nat) (x : A) (w : world) :
  (i < length l)%nat → list_assign l i x w = (Ok (<[i := x]> l), w).
Proof. intros Hi. unfold list_assign. by rewrite decide_True. Qed.

Lemma one_in_one_out_spend_vault (vault_txid : bytes) (vault_vout : Z)
    (txout : CTxOut) (rbf : bool) :
  one_in_one_out (create_spend_vault_txout vault_txid vault_vout txout rbf)
  = true.
Proof. reflexivity. Qed.

Lemma one_in_one_out_unvault_spend (unvault_txid : bytes) (unvault_vout : Z)
    (txout : CTxOut) (rbf : bool) :
  one_in_one_out (create_unvault_spend unvault_txid unvault_vout txout rbf)
  = true.
Proof. reflexivity. Qed.

Ltac run_M :=
  unfold mbind, M_bind, get_self, put_self, emit, assert, deref, the_key, lift,
    list_get, mret, M_ret, raise; cbn.

Lemma create_sign_emergency_Ok (v : vault) (sk : bytes) (w : world) :
  privkey v = Some sk →
  (our_slot (self w) < length (emergency_sigs v))%nat →
  let s := self w in
  let dummy_tx := create_emergency_vault_tx (lx (txid v)) (vault_vout v)
                    COIN (emergency_pubkeys s) in
  let id := hex (GetTxid dummy_tx) in
  let etx := create_emergency_vault_tx (lx (txid v)) (vault_vout v)
               (amount v - sigserver_feerate "emergency" id * tx_size dummy_tx)
               (emergency_pubkeys s) in
  create_sign_emergency v w
  = (Ok (set_emergency v (Some etx)
           (<[our_slot s := Some (sign_emergency_vault_tx etx sk (pubkeys v)
                                    (amount v) true)]> (emergency_sigs v)),
         sign_emergency_vault_tx etx sk (pubkeys v) (amount v) false),
     {| self := s; trace := trace w ++ [SigserverGetFeerate "emergency" id] |}).
Proof.
  intros Hsk Hslot s dummy_tx id etx.
  unfold create_sign_emergency. run_M. rewrite Hsk. cbn.
  unfold create_emergency_vault_tx at 1. rewrite one_in_one_out_spend_vault.
  by rewrite list_assign_Ok.
Qed.

Lemma create_sign_unvault_Ok (v : vault) (sk p1 p2 p3 p4 : bytes) (w : world) :
  privkey v = Some sk →
  pubkeys v = [p1; p2; p3; p4] →
  let s := self w in
  let script := unvault_script p1 p2 p3 p4 (cosigner_pubkey s) in
  let unvault_template value :=
    create_spend_vault_txout (lx (txid v)) (vault_vout v)
      {| nValue := value; scriptPubKey := p2wsh script |} false in
  let dummy_tx := unvault_template COIN in
  let id := hex (GetTxid dummy_tx) in
  let utx := unvault_template
               (amount v - sigserver_feerate "cancel" id * tx_size dummy_tx) in
  create_sign_unvault v w
  = (Ok (set_unvault v (Some utx) (unvault_sigs v),
         sign_unvault_tx utx sk (pubkeys v) (amount v)),
     {| self := s; trace := trace w ++ [SigserverGetFeerate "cancel" id] |}).
Proof.
  intros Hsk Hkeys s script unvault_template dummy_tx id utx.
  unfold create_sign_unvault, create_unvault_tx, unvault_txout. run_M.
  rewrite Hkeys. cbn. by rewrite Hsk.
Qed.

Lemma watch_unvault_Ok (v : vault) (t : tx) (out : CTxOut) (w : world) :
  unvault_tx v = Some t → vout t = [out] →
  let s := self w in
  let addr := from_scriptPubKey (scriptPubKey out) in
  watch_unvault v w
  = (Ok (),
     {| self := if bool_decide (addr ∈ unvault_addresses s) then s
                else set_unvault_addresses s (unvault_addresses s ++ [addr]);
        trace := trace w ++ [ImportAddress addr "unvault" false] |}).
Proof.
  intros Ht Hout s addr. unfold watch_unvault. run_M.
  rewrite Ht, Hout. cbn. subst addr s.
  rewrite (bool_decide_eq_true_2 (1%nat = 1%nat)) by done. cbn.
  by case_bool_decide.
Qed.

Lemma create_sign_cancel_Ok (v : vault) (sk p1 p2 p3 p4 : bytes) (utx : tx)
    (out : CTxOut) (w : world) :
  privkey v = Some sk →
  pubkeys v = [p1; p2; p3; p4] →
  unvault_tx v = Some utx → vout utx = [out] →
  (our_slot (self w) < length (cancel_sigs v))%nat →
  let s := self w in
  let script := unvault_script p1 p2 p3 p4 (cosigner_pubkey s) in
  let dummy_tx := create_cancel_tx (GetTxid utx) 0 (pubkeys v) COIN in
  let id := hex (GetTxid dummy_tx) in
  let ctx := create_cancel_tx (GetTxid utx) 0 (pubkeys v)
               (nValue out - sigserver_feerate "cancel" id * tx_size dummy_tx) in
  let sign flag :=
    ecdsa_sign sk (SignatureHash script ctx 0 flag (nValue out))
      ++ [byte_of_Z flag] in
  create_sign_cancel v w
  = (Ok (set_cancel v (Some ctx)
           (<[our_slot s := Some (sign SIGHASH_ALL)]> (cancel_sigs v)),
         sign ALL_ANYONECANPAY),
     {| self := s; trace := trace w ++ [SigserverGetFeerate "cancel" id] |}).
Proof.
  intros Hsk Hkeys Hutx Hout Hslot s script dummy_tx id ctx sign.
  unfold create_sign_cancel, sign_cancel_tx, sign_unvault_revault. run_M.
  rewrite Hutx, Hout. cbn.
  rewrite (bool_decide_eq_true_2 (1%nat = 1%nat)) by done. cbn.
  rewrite Hsk, Hkeys. cbn.
  unfold create_cancel_tx at 1. rewrite one_in_one_out_unvault_spend.
  rewrite list_assign_Ok by done. subst ctx dummy_tx id sign script s. rewrite Hkeys. reflexivity.
Qed.

Lemma create_sign_unvault_emer_Ok (v : vault) (sk p1 p2 p3 p4 : bytes)
    (utx : tx) (out : CTxOut) (w : world) :
  privkey v = Some sk →
  pubkeys v = [p1; p2; p3; p4] →
  unvault_tx v = Some utx → vout utx = [out] →
  (our_slot (self w) < length (unvault_emer_sigs v))%nat →
  let s := self w in
  let script := unvault_script p1 p2 p3 p4 (cosigner_pubkey s) in
  let dummy_tx := create_emer_unvault_tx (GetTxid utx) 0
                    (emergency_pubkeys s) COIN in
  let id := hex (GetTxid dummy_tx) in
  let uetx := create_emer_unvault_tx (GetTxid utx) 0 (emergency_pubkeys s)
                (nValue out
                 - sigserver_feerate "emergency" id * tx_size dummy_tx) in
  let sig :=
    ecdsa_sign sk (SignatureHash script uetx 0 ALL_ANYONECANPAY (nValue out))
      ++ [byte_of_Z ALL_ANYONECANPAY] in
  create_sign_unvault_emer v w
  = (Ok (set_unvault_emer v (Some uetx)
           (<[our_slot s := Some sig]> (unvault_emer_sigs v)),
         sig),
     {| self := s; trace := trace w ++ [SigserverGetFeerate "emergency" id] |}).
Proof.
  intros Hsk Hkeys Hutx Hout Hslot s script dummy_tx id uetx sig.
  unfold create_sign_unvault_emer, sign_emer_unvault_tx, sign_unvault_revault.
  run_M. rewrite Hutx, Hout. cbn. rewrite Hsk, Hkeys. cbn.
  unfold create_emer_unvault_tx at 1. rewrite one_in_one_out_unvault_spend.
  by rewrite list_assign_Ok.
Qed.


Lemma add_new_vault_Ok (output : utxo) (index : Z) (w : world) :
  guess_index (self w) (utxo_address output) = Some index →
  (our_slot (self w) < 4)%nat →
  let s := self w in
  let pks := get_pubkeys index in
  let sk := get_privkey_from_path index in
  let prev := lx (utxo_txid output) in
  let n := utxo_vout output in
  let e_dummy := create_emergency_vault_tx prev n COIN (emergency_pubkeys s) in
  let e_id := hex (GetTxid e_dummy) in
  let etx := create_emergency_vault_tx prev n
               (utxo_amount output
                - sigserver_feerate "emergency" e_id * tx_size e_dummy)
               (emergency_pubkeys s) in
  let script := unvault_script (get_pubkey_from_path 0 index)
                  (get_pubkey_from_path 1 index) (get_pubkey_from_path 2 index)
                  (get_pubkey_from_path 3 index) (cosigner_pubkey s) in
  let unvault_out value := {| nValue := value; scriptPubKey := p2wsh script |} in
  let u_dummy := create_spend_vault_txout prev n (unvault_out COIN) false in
  let u_id := hex (GetTxid u_dummy) in
  let u_amount := utxo_amount output
                  - sigserver_feerate "cancel" u_id * tx_size u_dummy in
  let utx := create_spend_vault_txout prev n (unvault_out u_amount) false in
  let addr := from_scriptPubKey (p2wsh script) in
  let c_dummy := create_cancel_tx (GetTxid utx) 0 pks COIN in
  let c_id := hex (GetTxid c_dummy) in
  let ctx := create_cancel_tx (GetTxid utx) 0 pks
               (u_amount - sigserver_feerate "cancel" c_id * tx_size c_dummy) in
  let ue_dummy := create_emer_unvault_tx (GetTxid utx) 0
                    (emergency_pubkeys s) COIN in
  let ue_id := hex (GetTxid ue_dummy) in
  let uetx := create_emer_unvault_tx (GetTxid utx) 0 (emergency_pubkeys s)
                (u_amount
                 - sigserver_feerate "emergency" ue_id * tx_size ue_dummy) in
  let sign_under t flag :=
    ecdsa_sign sk (SignatureHash script t 0 flag u_amount) ++ [byte_of_Z flag] in
  let blank_table := [None; None; None; None] in
  let v :=
    {| txid := utxo_txid output; vault_vout := n; amount := utxo_amount output;
       pubkeys := pks; privkey := Some sk; address := utxo_address output;
       emergency_tx := Some etx;
       emergency_sigs :=
         <[our_slot s := Some (sign_emergency_vault_tx etx sk pks
                                 (utxo_amount output) true)]> blank_table;
       emergency_signed := false;
       unvault_tx := Some utx;
       unvault_sigs :=
         <[our_slot s := Some (sign_unvault_tx utx sk pks
                                 (utxo_amount output))]> blank_table;
       unvault_signed := false;
       cancel_tx := Some ctx;
       cancel_sigs :=
         <[our_slot s := Some (sign_under ctx SIGHASH_ALL)]> blank_table;
       unvault_emer_tx := Some uetx;
       unvault_emer_sigs :=
         <[our_slot s := Some (sign_under uetx ALL_ANYONECANPAY)]> blank_table;
       unvault_secure := false |} in
  add_new_vault output w
  = (Ok (),
     {| self :=
          set_vaults
            (if bool_decide (addr ∈ unvault_addresses s) then s
             else set_unvault_addresses s (unvault_addresses s ++ [addr]))
            (vaults s ++ [v]);
        trace :=
          trace w ++
          [SigserverGetFeerate "emergency" e_id;
           SigserverGetFeerate "cancel" u_id;
           ImportAddress addr "unvault" false;
           SigserverGetFeerate "cancel" c_id;
           SigserverGetFeerate "emergency" ue_id;
           SendSignature (hex (GetTxid etx))
             (Some (sign_emergency_vault_tx etx sk pks (utxo_amount output)
                      false));
           SendSignature (hex (GetTxid ctx))
             (Some (sign_under ctx ALL_ANYONECANPAY));
           SendSignature (hex (GetTxid uetx))
             (Some (sign_under uetx ALL_ANYONECANPAY))] |}).
Proof.
  intros Hguess Hslot s pks sk prev n e_dummy e_id etx script unvault_out
    u_dummy u_id u_amount utx addr c_dummy c_id ctx ue_dummy ue_id uetx
    sign_under blank_table v.
  unfold add_new_vault. unfold mbind at 1, M_bind at 1, get_self at 1.
  change (address (new_vault output)) with (utxo_address output).
  cbv beta. rewrite Hguess.
  set (v0 := set_keys (new_vault output) (get_pubkeys index)
               (Some (get_privkey_from_path index))).
  (* the emergency template *)
  unfold mbind at 1, M_bind at 1.
  pose proof (create_sign_emergency_Ok v0 sk w eq_refl Hslot) as He.
  cbv zeta in He. rewrite He. clear He.
  change (txid v0) with (utxo_txid output).
  change (vault_vout v0) with n. change (amount v0) with (utxo_amount output).
  change (pubkeys v0) with pks. change (emergency_sigs v0) with blank_table.
  fold s prev. fold e_dummy. fold e_id. fold etx.
  set (w1 := {| self := s; trace := _ |}).
  set (v1 := set_emergency v0 _ _).
  (* the unvault template *)
  unfold mbind at 1, M_bind at 1.
  pose proof (create_sign_unvault_Ok v1 sk _ _ _ _ w1 eq_refl eq_refl) as Hu.
  cbv zeta in Hu. rewrite Hu. clear Hu.
  change (txid v1) with (utxo_txid output).
  change (vault_vout v1) with n. change (amount v1) with (utxo_amount output).
  change (pubkeys v1) with pks. change (unvault_sigs v1) with blank_table.
  change (self w1) with s.
  fold prev script. fold (unvault_out COIN). fold u_dummy. fold u_id.
  fold u_amount. fold (unvault_out u_amount). fold utx.
  set (w2 := {| self := s; trace := _ |}).
  set (v2 := set_unvault v1 _ _).
  (* the own unvault signature is kept *)
  unfold mbind at 1, M_bind at 1.
  rewrite list_assign_Ok by exact Hslot.
  change (unvault_sigs v2) with blank_table.
  change (unvault_tx v2) with (Some utx).
  set (v3 := set_unvault v2 _ _).
  (* the unvault address is watched *)
  unfold mbind at 1, M_bind at 1.
  pose proof (watch_unvault_Ok v3 utx (unvault_out u_amount) w2
                eq_refl eq_refl) as Hw.
  cbv zeta in Hw. rewrite Hw. clear Hw.
  change (self w2) with s.
  change (from_scriptPubKey (scriptPubKey (unvault_out u_amount))) with addr.
  set (s1 := if bool_decide (addr ∈ unvault_addresses s) then s else _).
  assert (our_slot s1 = our_slot s ∧ cosigner_pubkey s1 = cosigner_pubkey s
          ∧ emergency_pubkeys s1 = emergency_pubkeys s ∧ vaults s1 = vaults s)
    as (Hs1 & Hs2 & Hs3 & Hs4) by (subst s1; by case_bool_decide).
  set (w3 := {| self := s1; trace := _ |}).
  (* the cancel template *)
  unfold mbind at 1, M_bind at 1.
  pose proof (create_sign_cancel_Ok v3 sk _ _ _ _ utx (unvault_out u_amount) w3
                eq_refl eq_refl eq_refl eq_refl) as Hc.
  cbv zeta in Hc. change (self w3) with s1 in Hc.
  rewrite Hs1, Hs2 in Hc. rewrite Hc by exact Hslot. clear Hc.
  change (pubkeys v3) with pks. change (cancel_sigs v3) with blank_table.
  change (nValue (unvault_out u_amount)) with u_amount.
  fold script. fold c_dummy. fold c_id. fold ctx.
  fold (sign_under ctx SIGHASH_ALL). fold (sign_under ctx ALL_ANYONECANPAY).
  set (w4 := {| self := s1; trace := _ |}).
  set (v4 := set_cancel v3 _ _).
  (* the unvault-emergency template *)
  unfold mbind at 1, M_bind at 1.
  pose proof (create_sign_unvault_emer_Ok v4 sk _ _ _ _ utx
                (unvault_out u_amount) w4 eq_refl eq_refl eq_refl eq_refl)
    as Hue.
  cbv zeta in Hue. change (self w4) with s1 in Hue.
  rewrite Hs1, Hs2, Hs3 in Hue. rewrite Hue by exact Hslot. clear Hue.
  change (unvault_emer_sigs v4) with blank_table.
  change (nValue (unvault_out u_amount)) with u_amount.
  fold script. fold ue_dummy. fold ue_id. fold uetx.
  fold (sign_under uetx ALL_ANYONECANPAY).
  (* the three signatures are sent, the vault is appended *)
  unfold txid_hex, mbind, M_bind, deref, emit, get_self, put_self, mret, M_ret.
  cbn. rewrite Hs4. subst w4 w3 w2 w1. cbn. rewrite <- !app_assoc. reflexivity.
Qed.



(** X9. The four templates of an ingested deposit.  The emergency and
    the unvault transaction spend the deposit's outpoint; the cancel and
    the unvault-emergency transaction spend output 0 of the unvault
    transaction.  The unvault output pays the unvault script of the
    vault's keys and the cosigner, the cancel output pays back to the
    address the deposit came in at, both emergency outputs pay the
    emergency script.  Each amount is what the transaction spends less
    a fee, the sig-server's fee-rate times the size of the same template
    built for one coin; the revocation amounts start from the unvault
    amount, so the fees stack, and no amount is checked against zero.
    The unvault address is among the engine's unvault addresses
    afterwards, and those it had are kept. *)
Theorem ingest_templates (output : utxo) (index : Z) (w : world) :
  guess_index (self w) (utxo_address output) = Some index →
  (our_slot (self w) < 4)%nat →
  let s := self w in
  let deposit := {| op_hash := lx (utxo_txid output);
                    op_n := utxo_vout output |} in
  let fee kind dummy_tx :=
    sigserver_feerate kind (hex (GetTxid dummy_tx)) * tx_size dummy_tx in
  ∃ v w' etx utx uout ctx uetx u_dummy a_e a_u a_c a_ue,
    add_new_vault output w = (Ok (), w')
    ∧ last (vaults (self w')) = Some v
    ∧ emergency_tx v = Some etx ∧ unvault_tx v = Some utx
    ∧ cancel_tx v = Some ctx ∧ unvault_emer_tx v = Some uetx
    ∧ prevout <$> vin etx = [deposit] ∧ prevout <$> vin utx = [deposit]
    ∧ prevout <$> vin ctx = [{| op_hash := GetTxid utx; op_n := 0 |}]
    ∧ prevout <$> vin uetx = [{| op_hash := GetTxid utx; op_n := 0 |}]
    ∧ vout etx = [emergency_txout (emergency_pubkeys s) a_e]
    ∧ unvault_txout (get_pubkeys index) (cosigner_pubkey s) a_u = Ok uout
    ∧ vout utx = [uout]
    ∧ vout ctx = [vault_txout (get_pubkeys index) a_c]
    ∧ vout uetx = [emergency_txout (emergency_pubkeys s) a_ue]
    ∧ from_scriptPubKey (scriptPubKey (vault_txout (get_pubkeys index) a_c))
      = utxo_address output
    ∧ a_e = utxo_amount output
            - fee "emergency"
                (create_emergency_vault_tx (lx (utxo_txid output))
                   (utxo_vout output) COIN (emergency_pubkeys s))
    ∧ create_unvault_tx (lx (utxo_txid output)) (utxo_vout output)
        (get_pubkeys index) (cosigner_pubkey s) COIN = Ok u_dummy
    ∧ a_u = utxo_amount output - fee "cancel" u_dummy
    ∧ a_c = a_u - fee "cancel"
                    (create_cancel_tx (GetTxid utx) 0 (get_pubkeys index) COIN)
    ∧ a_ue = a_u - fee "emergency"
                     (create_emer_unvault_tx (GetTxid utx) 0
                        (emergency_pubkeys s) COIN)
    ∧ from_scriptPubKey (scriptPubKey uout) ∈ unvault_addresses (self w')
    ∧ unvault_addresses s ⊆ unvault_addresses (self w').
Proof.
  intros Hguess Hslot s deposit fee.
  pose proof (add_new_vault_Ok output index w Hguess Hslot) as Hok.
  cbv zeta in Hok.
  apply guess_index_Some in Hguess as (_ & Haddr & _).
  eexists _, _, _, _, _, _, _, _, _, _, _, _.
  split; [exact Hok|]. clear Hok. cbn [self trace vaults set_vaults].
  split; [apply last_snoc|].
  cbn [emergency_tx unvault_tx cancel_tx unvault_emer_tx].
  do 4 (split; [reflexivity|]).
  do 4 (split; [reflexivity|]).
  do 5 (split; [reflexivity|]).
  split; [exact Haddr|].
  do 5 (split; [reflexivity|]).
  cbn [scriptPubKey]. subst s.
  case_bool_decide as Hin; cbn.
  - done.
  - split; [set_solver|]. set_solver.
Qed.

End ingest_effects.



Lemma ingest_templates_witness :
  ∃ v w' utx,
    @add_new_vault Toy.crypto Toy.services (Toy.deposit 0) (Toy.start_world 0)
    = (Ok (), w')
    ∧ last (vaults (self w')) = Some v
    ∧ unvault_tx v = Some utx
    ∧ nValue <$> vout utx = [99999900].
Proof.
  destruct (@ingest_templates Toy.crypto Toy.services (Toy.deposit 0) 0
              (Toy.start_world 0) eq_refl ltac:(cbn; lia))
    as (v & w' & etx & utx & uout & ctx & uetx & u_dummy & a_e & a_u & a_c
        & a_ue & Hrun & Hlast & _ & Hutx & _ & _ & _ & _ & _ & _ & _ & Hout
        & Hvout & _ & _ & _ & _ & Hdummy & Hau & _).
  exists v, w', utx. split; [exact Hrun|]. split; [exact Hlast|].
  split; [exact Hutx|]. rewrite Hvout.
  injection Hout as <-. injection Hdummy as <-. by rewrite Hau.
Defined.

(** * The watched addresses *)

Section watch_facts.
Context `{Crypto} `{Services}.

Lemma watch_fold (indexes : list Z) (l : list string) :
  ∃ added,
    foldl (λ watched i,
             if bool_decide (get_vault_address i ∈ watched) then watched
             else watched ++ [get_vault_address i])
          l indexes = l ++ added
    ∧ (∀ i, i ∈ indexes → get_vault_address i ∈ l ++ added)
    ∧ (∀ a, a ∈ added →
            (a ∉ l) ∧ (∃ i, i ∈ indexes ∧ a = get_vault_address i))
    ∧ NoDup added.
Proof.
  revert l. induction indexes as [|i indexes IH]; intros l.
  - exists []. rewrite app_nil_r. split; [done|].
    split; [by intros i Hi%elem_of_nil|].
    split; [by intros a Ha%elem_of_nil|]. constructor.
  - cbn [foldl]. case_bool_decide as Hin.
    + destruct (IH l) as (added & Heq & Hall & Hnew & Hnodup).
      exists added. split; [done|]. split.
      { intros j [->|Hj]%elem_of_cons; [|by apply Hall].
        apply elem_of_app. by left. }
      split; [|done].
      intros a Ha. pose proof (Hnew a Ha) as (Hnot & j & Hj & Haj).
      split; [done|]. exists j. split; [|done]. apply elem_of_cons. by right.
    + destruct (IH (l ++ [get_vault_address i]))
        as (added & Heq & Hall & Hnew & Hnodup).
      exists (get_vault_address i :: added).
      split; [by rewrite Heq, <- app_assoc|]. split.
      { intros j [->|Hj]%elem_of_cons.
        - apply elem_of_app. right. apply elem_of_cons. by left.
        - specialize (Hall j Hj). by rewrite <- app_assoc in Hall. }
      split.
      { intros a [->|Ha]%elem_of_cons.
        - split; [done|]. exists i. split; [|done]. apply elem_of_cons. by left.
        - pose proof (Hnew a Ha) as (Hnot & j & Hj & Haj).
          split.
          + intros Hl. apply Hnot, elem_of_app. by left.
          + exists j. split; [|done]. apply elem_of_cons. by right. }
      constructor; [|done]. intros Ha. pose proof (Hnew _ Ha) as [Hnot _].
      apply Hnot, elem_of_app. right. apply elem_of_cons. by left.
Qed.


Lemma update_watched_addresses_Ok (w : world) :
  let s := self w in
  ∃ added,
    update_watched_addresses w
    = (Ok (), {| self := set_vault_addresses s (vault_addresses s ++ added);
                 trace := trace w ++ [ImportMultiExtended (current_index s)
                                        (max_index s)] |})
    ∧ (∀ i, current_index s ≤ i < max_index s →
            get_vault_address i ∈ vault_addresses s ++ added)
    ∧ (∀ a, a ∈ added →
            (a ∉ vault_addresses s)
            ∧ (∃ i, current_index s ≤ i < max_index s
                    ∧ a = get_vault_address i))
    ∧ NoDup added.
Proof.
  intros s.
  destruct (watch_fold (seqZ (current_index s) (max_index s - current_index s))
              (vault_addresses s)) as (added & Heq & Hall & Hnew & Hnodup).
  exists added. split.
  { unfold update_watched_addresses, mbind, M_bind, get_self, put_self, emit.
    cbv beta iota zeta. cbn [self trace]. fold s. by rewrite Heq. }
  split.
  { intros i Hi. apply Hall, elem_of_seqZ. lia. }
  split; [|done].
  intros a Ha. pose proof (Hnew a Ha) as (Hnot & i & Hi%elem_of_seqZ & ->).
  split; [done|]. exists i. split; [lia|done].
Qed.


Lemma getnewaddress_Ok (w : world) :
  let s := self w in
  let gen := current_gen_index s in
  ∃ added evs,
    getnewaddress w
    = (Ok (get_vault_address gen),
       {| self := set_vault_addresses (set_gen_index s (gen + 1))
                    (vault_addresses s ++ added);
          trace := trace w ++ evs |})
    ∧ (gen + 1 ≤ index_treshold s - 20 → added = [] ∧ evs = [])
    ∧ (index_treshold s - 20 < gen + 1 →
       evs = [ImportMultiExtended (current_index s) (max_index s)]
       ∧ ∀ i, current_index s ≤ i < max_index s →
              get_vault_address i ∈ vault_addresses s ++ added).
Proof.
  intros s gen. subst s gen.
  unfold getnewaddress. unfold mbind at 1, M_bind at 1, get_self at 1.
  unfold mbind at 1, M_bind at 1, put_self at 1. cbv beta iota zeta.
  cbn [self trace index_treshold current_gen_index set_gen_index].
  destruct (Z.ltb_spec (index_treshold (self w) - 20)
              (current_gen_index (self w) + 1)) as [Hlt|Hge].
  - set (w1 := {| self := _; trace := trace w |}).
    destruct (update_watched_addresses_Ok w1) as (added & Hrun & Hall & _).
    exists added, [ImportMultiExtended (current_index (self w))
                     (max_index (self w))].
    unfold mbind, M_bind. rewrite Hrun. split; [done|].
    split; [lia|]. intros _. split; [done|]. exact Hall.
  - exists [], []. rewrite !app_nil_r. split; [done|].
    split; [done|]. lia.
Qed.


(** X12. An address handed out beyond the window is lost to the engine.
    If no index of [0, max_index) yields the vault address of the
    generation index -- as when that index has reached [max_index] and
    addresses do not collide -- then [getnewaddress] still hands the
    address out, and a deposit reported at it can never be ingested:
    in the state the call leaves, [add_new_vault] raises "No such vault
    script with our known pubkeys !" and changes nothing. *)
Theorem address_beyond_window_not_ingested (w : world) :
  (∀ j, 0 ≤ j < max_index (self w) →
        get_vault_address j ≠ get_vault_address (current_gen_index (self w))) →
  ∃ addr w',
    getnewaddress w = (Ok addr, w')
    ∧ addr = get_vault_address (current_gen_index (self w))
    ∧ ∀ output, utxo_address output = addr →
                add_new_vault output w' = (Raise no_such_vault, w').
Proof.
  intros Hfresh.
  destruct (getnewaddress_Ok w) as (added & evs & Hrun & _).
  eexists _, _. split; [exact Hrun|]. split; [done|].
  intros output Haddr.
  unfold add_new_vault. unfold mbind, M_bind, get_self. cbn [self trace].
  change (address (new_vault output)) with (utxo_address output).
  cbv beta iota. rewrite Haddr.
  assert (guess_index
            (set_vault_addresses
               (set_gen_index (self w) (current_gen_index (self w) + 1))
               (vault_addresses (self w) ++ added))
            (get_vault_address (current_gen_index (self w))) = None) as ->.
  { apply guess_index_None. exact Hfresh. }
  done.
Qed.

(** X13. The funds poller's handling of one new deposit whose address
    [guess_index] resolves: the deposit is ingested as one more vault
    and both ends of the derivation window move up by one, so the window
    keeps its width; the threshold is not moved.  While the new
    [current_index] is at most twenty below the threshold the watched
    addresses stay as they were (the address of the index that entered
    the window is not added); beyond, the whole window is watched
    afterwards and the last call made is its import into bitcoind. *)
Theorem new_deposit_slides_window (output : utxo) (index : Z) (w : world) :
  guess_index (self w) (utxo_address output) = Some index →
  (our_slot (self w) < 4)%nat →
  let s := self w in
  ∃ v w',
    poll_for_funds_new_vault output w = (Ok (), w')
    ∧ vaults (self w') = vaults s ++ [v] ∧ txid v = utxo_txid output
    ∧ current_index (self w') = current_index s + 1
    ∧ max_index (self w') = max_index s + 1
    ∧ index_treshold (self w') = index_treshold s
    ∧ current_gen_index (self w') = current_gen_index s
    ∧ (current_index s + 1 ≤ index_treshold s - 20 →
       vault_addresses (self w') = vault_addresses s
       ∧ ∀ e, e ∈ trace w' → e ∈ trace w ∨ ∀ a b, e ≠ ImportMultiExtended a b)
    ∧ (index_treshold s - 20 < current_index s + 1 →
       (∀ i, current_index s + 1 ≤ i < max_index s + 1 →
             get_vault_address i ∈ vault_addresses (self w'))
       ∧ last (trace w') = Some (ImportMultiExtended (current_index s + 1)
                                   (max_index s + 1))).
Proof.
  intros Hguess Hslot s. subst s.
  pose proof (add_new_vault_Ok output index w Hguess Hslot) as Hok.
  cbv zeta in Hok.
  unfold poll_for_funds_new_vault. unfold mbind at 1, M_bind at 1.
  rewrite Hok. clear Hok.
  unfold mbind at 1, M_bind at 1, get_self at 1.
  unfold mbind at 1, M_bind at 1, put_self at 1.
  cbv beta iota zeta. cbn [self trace].
  set (s1 := if bool_decide _ then self w else _).
  assert (current_index s1 = current_index (self w)
          ∧ max_index s1 = max_index (self w)
          ∧ index_treshold s1 = index_treshold (self w)
          ∧ current_gen_index s1 = current_gen_index (self w)
          ∧ vault_addresses s1 = vault_addresses (self w))
    as (Hs1 & Hs2 & Hs3 & Hs4 & Hs5) by (subst s1; by case_bool_decide).
  cbn [index_treshold current_index max_index set_indexes set_vaults].
  rewrite Hs1, Hs2, Hs3.
  destruct (Z.ltb_spec (index_treshold (self w) - 20)
              (current_index (self w) + 1)) as [Hlt|Hge].
  - set (w1 := {| self := _; trace := _ |}).
    destruct (update_watched_addresses_Ok w1) as (added & Hrun & Hall & _).
    eexists _, _. split; [exact Hrun|]. cbn [self trace].
    cbn [vaults current_index max_index index_treshold current_gen_index
         vault_addresses set_vault_addresses set_indexes set_vaults txid].
    do 6 (split; [done|]).
    split; [lia|]. intros _. split.
    + intros i Hi. by apply Hall.
    + by rewrite last_snoc.
  - eexists _, _. split; [reflexivity|]. cbn [self trace].
    cbn [vaults current_index max_index index_treshold current_gen_index
         vault_addresses set_indexes set_vaults txid].
    do 6 (split; [done|]).
    split; [|lia]. intros _. split; [done|].
    intros e [He|He]%elem_of_app; [by left|]. right. intros a b ->.
    repeat (apply elem_of_cons in He as [He|He]; [done|]).
    by apply elem_of_nil in He.
Qed.

End watch_facts.

Lemma address_beyond_window_not_ingested_witness :
  ∃ w',
    @getnewaddress Toy.crypto Toy.services Toy.exhausted
    = (Ok (@get_vault_address Toy.crypto Toy.services 500), w')
    ∧ @add_new_vault Toy.crypto Toy.services (Toy.deposit 500) w'
      = (Raise no_such_vault, w').
Proof.
  assert (∀ j, 0 ≤ j < 500 →
               @get_vault_address Toy.crypto Toy.services j
               ≠ @get_vault_address Toy.crypto Toy.services 500) as Hfresh.
  { apply (Forall_seqZ (λ j, @get_vault_address Toy.crypto Toy.services j
                             ≠ @get_vault_address Toy.crypto Toy.services 500)
             0 500).
    apply (bool_decide_unpack _). by vm_compute. }
  destruct (@address_beyond_window_not_ingested Toy.crypto Toy.services
              Toy.exhausted Hfresh) as (addr & w' & Hrun & -> & Hlost).
  exists w'. split; [exact Hrun|]. by apply Hlost.
Defined.

Lemma new_deposit_slides_window_witness :
  ∃ w',
    @poll_for_funds_new_vault Toy.crypto Toy.services (Toy.deposit 0)
      (Toy.start_world 0) = (Ok (), w')
    ∧ current_index (self w') = 1 ∧ max_index (self w') = 501.
Proof.
  destruct (@new_deposit_slides_window Toy.crypto Toy.services (Toy.deposit 0) 0
              (Toy.start_world 0) eq_refl ltac:(cbn; lia))
    as (v & w' & Hrun & _ & _ & Hcur & Hmax & _).
  exists w'. split; [exact Hrun|]. split; [exact Hcur|exact Hmax].
Defined.


